(** * cleanup_nodes: removal of not-ready Kubernetes nodes

    A shallow embedding of [paasta_tools/kubernetes/bin/cleanup_nodes.py]
    and the properties of its enumerate / filter / delete pipeline.

    The script is effectful Python: it logs, it calls the cluster API, it
    catches one class of exception and lets the others escape, and it ends the
    process with [sys.exit].  The embedding keeps all of that in a small state
    and exception monad [M] over an explicit [world]. *)

From stdpp Require Import base decidable option numbers list strings.

Local Open Scope Z_scope.
Local Open Scope string_scope.
Local Open Scope list_scope.

(** ** Data of the Kubernetes client library

    Only the attributes the script reads are kept.  [V1NodeCondition.status]
    is a Python [str] (the API serialises it as "True", "False" or
    "Unknown"); the script compares it with string literals and hands it back
    to its caller unchanged, so it stays a string here. *)

Record V1NodeCondition := {
  condition_type : string;      (* condition.type *)
  condition_status : string;    (* condition.status *)
}.

Record V1ObjectMeta := {
  name : string;                (* metadata.name *)
}.

Record V1NodeStatus := {
  conditions : list V1NodeCondition;   (* status.conditions *)
}.

Record V1Node := {
  metadata : V1ObjectMeta;      (* node.metadata *)
  status : V1NodeStatus;        (* node.status *)
}.

(** [kubernetes.client.rest.ApiException]: an HTTP-level failure. *)
Record ApiException := {
  api_status : Z;
  api_reason : string;
}.

(** ** Python values and truthiness

    [is_node_ready] is annotated [-> bool] but returns [condition.status]
    itself on one of its paths, so its result is either a [bool] or a [str].
    [truthy] is Python's truth test, the one [not] applies: a string is false
    exactly when it is empty. *)

Inductive pyvalue :=
  | PyBool (b : bool)
  | PyStr (s : string).

Definition truthy (v : pyvalue) : bool :=
  match v with
  | PyBool b => b
  | PyStr s => bool_decide (s ≠ "")
  end.

(** ** Logging

    Messages are kept structured instead of rendered by the f-strings. *)

Inductive level := DEBUG | INFO | WARNING | ERROR.

(** The numeric values of the [logging] module. *)
Definition levelno (l : level) : Z :=
  match l with
  | DEBUG => 10
  | INFO => 20
  | WARNING => 30
  | ERROR => 40
  end.

Inductive message :=
  | MsgNoKubeletReady (node_name : string) (conds : list V1NodeCondition)
  | MsgFoundNodes (names : list string)
  | MsgNodesToBeDeleted (names : list string)
  | MsgDryRun
  | MsgDeleted (node_name : string)
  | MsgDeleteError (node_name : string) (exception : ApiException).

Record log_record := {
  record_level : level;
  record_message : message;
}.

(** ** The cluster API

    [KubeClient], [get_all_nodes] and [client.core.delete_node] live outside
    this file; the script only depends on how a call ends.  Any of them
    returns, or raises [ApiException], or raises something else (a
    configuration error, a connection error of the HTTP library), which
    [except ApiException] does not catch.  The first two only read; a
    deletion request may change the cluster whatever its answer. *)

Inductive answer (A : Type) :=
  | Answered (a : A)
  | ApiError (e : ApiException)
  | Failure (what : string).
Arguments Answered {A} _.
Arguments ApiError {A} _.
Arguments Failure {A} _.

Inductive delete_result :=
  | Deleted
  | ApiFailure (e : ApiException)
  | Crash (what : string).

Class KubeApi (C : Type) := {
  new_client : C → answer ();
  get_all_nodes : C → answer (list V1Node);
  delete_node : string → C → delete_result * C;
}.

(** ** The world and the monad *)

Record world (C : Type) := World {
  cluster : C;                                (* state of the control plane *)
  requests : list (string * delete_result);   (* delete_node calls, oldest first *)
  threshold : level;                          (* level of the root logger *)
  records : list log_record;                  (* emitted records, oldest first *)
  steps : nat;                                (* loop-body executions so far *)
}.
Arguments World {C} _ _ _ _ _.
Arguments cluster {C} _.
Arguments requests {C} _.
Arguments threshold {C} _.
Arguments records {C} _.
Arguments steps {C} _.

Inductive exn :=
  | ExApi (e : ApiException)
  | ExOther (what : string)
  | SystemExit (code : Z).

Inductive outcome (A : Type) :=
  | Val (a : A)
  | Raise (e : exn).
Arguments Val {A} _.
Arguments Raise {A} _.

Definition M (C A : Type) : Type := world C → outcome A * world C.

#[export] Instance M_ret {C} : MRet (M C) := λ A a w, (Val a, w).

#[export] Instance M_bind {C} : MBind (M C) := λ A B f m w,
  match m w with
  | (Val a, w') => f a w'
  | (Raise e, w') => (Raise e, w')
  end.

Definition raise {C A} (e : exn) : M C A := λ w, (Raise e, w).

(** [try: m  except ApiException as e: handler e]. *)
Definition try_except {C A} (m : M C A) (handler : ApiException → M C A) : M C A :=
  λ w,
    match m w with
    | (Raise (ExApi e), w') => handler e w'
    | r => r
    end.

(** The two ways the bookkeeping part of the world moves. *)
Definition add_steps {C} (n : nat) (w : world C) : world C :=
  World (cluster w) (requests w) (threshold w) (records w) (n + steps w).

Definition emit {C} (r : log_record) (w : world C) : world C :=
  World (cluster w) (requests w) (threshold w) (records w ++ [r]) (steps w).

(** One more execution of a loop body. *)
Definition tick {C} : M C () := λ w, (Val (), add_steps 1 w).

(** [logging.basicConfig(level=l)]. *)
Definition basicConfig {C} (l : level) : M C () := λ w,
  (Val (), World (cluster w) (requests w) l (records w) (steps w)).

(** [log.debug], [log.info], [log.error]: the record is emitted when its
    level reaches the logger's. *)
Definition log {C} (l : level) (msg : message) : M C () := λ w,
  (Val (),
   if decide (levelno (threshold w) ≤ levelno l)%Z
   then emit (Build_log_record l msg) w
   else w).

(** [sys.exit(code)]. *)
Definition sys_exit {C A} (code : Z) : M C A := raise (SystemExit code).

(** The status the operating system sees: 0 on a normal return, the code of
    [SystemExit], and 1 for any other uncaught exception. *)
Definition exit_status {A} (o : outcome A) : Z :=
  match o with
  | Val _ => 0
  | Raise (SystemExit code) => code
  | Raise _ => 1
  end.

(** ** Loops

    A loop body either falls through to the next element, carrying the
    loop's local variables, or leaves the function with [return]. *)

Inductive ctl (St R : Type) :=
  | Continue (st : St)
  | Return (r : R).
Arguments Continue {St R} _.
Arguments Return {St R} _.

Fixpoint for_in {C A St R} (xs : list A) (body : A → St → M C (ctl St R))
    (st : St) : M C (ctl St R) :=
  match xs with
  | [] => mret (Continue st)
  | x :: xs' =>
      tick;;
      c ← body x st;
      match c with
      | Continue st' => for_in xs' body st'
      | Return r => mret (Return r)
      end
  end.

(** A loop with no [return] in its body always falls off its end. *)
Definition fallen {St} (c : ctl St Empty_set) : St :=
  match c with
  | Continue st => st
  | Return r => match r with end
  end.

(** ** The script *)

Record Namespace := {
  verbose : bool;
  dry_run : bool;
}.

Section Script.
Context {C : Type} `{!KubeApi C}.

(** [client.core.delete_node(node, ...)]: the request reaches the cluster
    and is recorded with its result. *)
Definition core_delete_node (node : string) : M C () := λ w,
  let '(r, c') := delete_node node (cluster w) in
  let w' := World c' (requests w ++ [(node, r)]) (threshold w) (records w) (steps w) in
  match r with
  | Deleted => (Val (), w')
  | ApiFailure e => (Raise (ExApi e), w')
  | Crash what => (Raise (ExOther what), w')
  end.

(** A call that reads from the cluster: its answer is returned or raised. *)
Definition call {A} (f : C → answer A) : M C A := λ w,
  (match f (cluster w) with
   | Answered a => Val a
   | ApiError e => Raise (ExApi e)
   | Failure what => Raise (ExOther what)
   end, w).

(** [kube_client = KubeClient()]. *)
Definition KubeClient : M C () := call new_client.

(** [kube_client = KubeClient()] followed by
    [all_nodes = get_all_nodes(kube_client)], the two lines of [main] that
    obtain the node list; neither stands in a [try]. *)
Definition list_all_nodes : M C (list V1Node) :=
  KubeClient;;
  call get_all_nodes.

Definition is_node_ready (node : V1Node) : M C pyvalue :=
  c ← for_in (conditions (status node))
        (λ condition (_ : ()),
           if decide (condition_type condition = "Ready") then
             if decide (condition_status condition = "Unknown") then
               mret (Return (PyBool false))
             else mret (Return (PyStr (condition_status condition)))
           else mret (Continue ()))
        ();
  match c with
  | Return v => mret v
  | Continue _ =>
      log ERROR (MsgNoKubeletReady (name (metadata node)) (conditions (status node)));;
      mret (PyBool true)
  end.

Definition nodes_for_cleanup (nodes : list V1Node) : M C (list V1Node) :=
  c ← for_in nodes
        (λ node not_ready,
           ready ← is_node_ready node;
           if negb (truthy ready) then mret (Continue (not_ready ++ [node]))
           else mret (Continue not_ready))
        [];
  mret (fallen c).

Definition terminate_nodes (nodes : list string)
    : M C (list string * list (string * ApiException)) :=
  c ← for_in nodes
        (λ node '(success, errors),
           caught ← try_except
                      (core_delete_node node;; mret None)
                      (λ e, mret (Some (errors ++ [(node, e)])));
           match caught with
           | Some errors' => mret (Continue (success, errors'))
           | None => mret (Continue (success ++ [node], errors))
           end)
        ([], []);
  mret (fallen c).

(** [[node.metadata.name for node in nodes]]. *)
Definition node_names (nodes : list V1Node) : M C (list string) :=
  c ← for_in nodes
        (λ node acc, mret (Continue (acc ++ [name (metadata node)])))
        [];
  mret (fallen c).

(** The [if not dry_run: ... else: ...] statement of [main]; its value is
    the pair of locals [(success, errors)] it assigns. *)
Definition delete_step (dry_run : bool) (filtered_nodes : list V1Node)
    : M C (list string * list (string * ApiException)) :=
  if negb dry_run then
    names ← node_names filtered_nodes;
    terminate_nodes names
  else
    log INFO MsgDryRun;;
    mret ([], []).

(** The two reporting loops and the final [if errors: sys.exit(1)]. *)
Definition report (success : list string) (errors : list (string * ApiException))
    : M C () :=
  for_in (R := Empty_set) success
    (λ node_name (_ : ()), log INFO (MsgDeleted node_name);; mret (Continue ())) ();;
  for_in (R := Empty_set) errors
    (λ '(node_name, exception) (_ : ()),
       log ERROR (MsgDeleteError node_name exception);; mret (Continue ())) ();;
  match errors with
  | [] => mret ()
  | _ :: _ => sys_exit 1
  end.

Definition main (args : Namespace) : M C () :=
  basicConfig (if verbose args then DEBUG else WARNING);;
  all_nodes ← list_all_nodes;
  found ← node_names all_nodes;
  log DEBUG (MsgFoundNodes found);;
  filtered_nodes ← nodes_for_cleanup all_nodes;
  to_delete ← node_names filtered_nodes;
  log DEBUG (MsgNodesToBeDeleted to_delete);;
  '(success, errors) ← delete_step (dry_run args) filtered_nodes;
  report success errors.

End Script.

(** ** Vocabulary of the statements *)

(** A process starts with nothing requested, nothing logged and the root
    logger at the [logging] module's default level. *)
Definition fresh {C} (c : C) : world C := World c [] WARNING [] 0.

(** What [not is_node_ready(node)] evaluates to when the call is made in
    world [w]. *)
Definition says_not_ready {C} (w : world C) (node : V1Node) : bool :=
  match (is_node_ready node w).1 with
  | Val ready => negb (truthy ready)
  | Raise _ => false
  end.

(** The node's names, as the comprehensions of [main] compute them. *)
Definition names_of (nodes : list V1Node) : list string :=
  (λ node, name (metadata node)) <$> nodes.

(** What the two calls that obtain the node list give in cluster state
    [c]: the list, or the exception of the first call that raises. *)
Definition listing {C} `{!KubeApi C} (c : C) : answer (list V1Node) :=
  match new_client c with
  | Answered _ => get_all_nodes c
  | ApiError e => ApiError e
  | Failure what => Failure what
  end.

(** The cluster side of the world is the same in [w] and [w']. *)
Definition same_cluster {C} (w w' : world C) : Prop :=
  cluster w' = cluster w ∧ requests w' = requests w.

(** [m] returns a value, sends nothing to the cluster and leaves the
    logger's level alone, whatever the world. *)
Definition quiet {C A} (m : M C A) : Prop :=
  ∀ w, ∃ a w', m w = (Val a, w') ∧ same_cluster w w' ∧ threshold w' = threshold w.

(** How a deletion request ended. *)
Definition crashed (req : string * delete_result) : Prop :=
  ∃ what, req.2 = Crash what.

Definition failed (req : string * delete_result) : Prop :=
  req.2 ≠ Deleted.

#[export] Instance delete_result_eq_dec : EqDecision delete_result.
Proof. unfold EqDecision, Decision. repeat decide equality. Defined.

#[export] Instance crashed_dec req : Decision (crashed req).
Proof.
  unfold crashed. destruct req as [n [| e | what]]; simpl;
    [right | right | left]; [intros [? ?]; discriminate.. | eauto].
Defined.

(** The requests [reqs], sent one after the other to a control plane in
    state [c], get the recorded answers and leave it in state [c']. *)
Inductive served {C} `{!KubeApi C} : C → list (string * delete_result) → C → Prop :=
  | served_nil c : served c [] c
  | served_cons c node r c1 reqs c' :
      delete_node node c = (r, c1) →
      served c1 reqs c' →
      served c ((node, r) :: reqs) c'.

(** The pairs [terminate_nodes] appends to [errors], read off the requests. *)
Definition api_error (req : string * delete_result) : option (string * ApiException) :=
  match req.2 with
  | ApiFailure e => Some (req.1, e)
  | _ => None
  end.

(** ** A small cluster to run the script on

    The control plane knows a list of nodes, may be unreachable, and may
    be too slow to answer a deletion in time.  A deletion request for a
    registered name removes the node and one for an unknown name is answered
    404; when the control plane cannot be reached, or does not answer a
    deletion in time, the HTTP library raises its own error.  The client
    itself is always constructed. *)
Module Sample.

Record cluster_state := {
  registered : list V1Node;
  reachable : bool;
  stalls_on_delete : bool;
}.

#[global] Instance api : KubeApi cluster_state := {
  new_client c := Answered ();
  get_all_nodes c :=
    if reachable c then Answered (registered c) else Failure "MaxRetryError";
  delete_node node c :=
    if reachable c then
      if stalls_on_delete c then (Crash "ReadTimeoutError", c)
      else if decide (node ∈ names_of (registered c)) then
        (Deleted,
         {| registered := filter (λ n, name (metadata n) ≠ node) (registered c);
            reachable := true;
            stalls_on_delete := false |})
      else (ApiFailure {| api_status := 404; api_reason := "Not Found" |}, c)
    else (Crash "MaxRetryError", c);
}.

Definition mk_node (node_name : string) (conds : list (string * string)) : V1Node :=
  {| metadata := {| name := node_name |};
     status := {| conditions :=
       (λ p, {| condition_type := p.1; condition_status := p.2 |}) <$> conds |} |}.

Definition healthy : V1Node :=
  mk_node "node-a" [("MemoryPressure", "False"); ("Ready", "True")].
Definition down : V1Node :=
  mk_node "node-b" [("MemoryPressure", "False"); ("Ready", "False")].
Definition lost : V1Node :=
  mk_node "node-c" [("Ready", "Unknown"); ("DiskPressure", "False")].
Definition silent : V1Node :=
  mk_node "node-d" [("MemoryPressure", "False"); ("DiskPressure", "False")].
Definition gone : V1Node :=
  mk_node "node-e" [("Ready", "Unknown")].

Definition up : cluster_state :=
  {| registered := [healthy; down; lost; silent; gone];
     reachable := true; stalls_on_delete := false |}.
Definition unreachable : cluster_state :=
  {| registered := [healthy; down; lost; silent; gone];
     reachable := false; stalls_on_delete := false |}.
Definition stalling : cluster_state :=
  {| registered := [healthy; down; lost; silent; gone];
     reachable := true; stalls_on_delete := true |}.
Definition quiet_cluster : cluster_state :=
  {| registered := [healthy; down; silent];
     reachable := true; stalls_on_delete := false |}.

End Sample.

(** ** Vocabulary of the log and of the cost *)

(** A record passes a logger whose level is [t]. *)
Definition visible (t : level) (r : log_record) : Prop :=
  (levelno t ≤ levelno (record_level r))%Z.

#[export] Instance visible_dec t r : Decision (visible t r) :=
  decide (levelno t ≤ levelno (record_level r))%Z.

(** The world after the records [rs] were handed to the logger, in order. *)
Definition logged {C} (rs : list log_record) (w : world C) : world C :=
  World (cluster w) (requests w) (threshold w)
        (records w ++ filter (visible (threshold w)) rs) (steps w).

Definition with_level {C} (l : level) (w : world C) : world C :=
  World (cluster w) (requests w) l (records w) (steps w).

Definition has_ready_condition (node : V1Node) : Prop :=
  Exists (λ c, condition_type c = "Ready") (conditions (status node)).

#[export] Instance has_ready_condition_dec node : Decision (has_ready_condition node).
Proof. unfold has_ready_condition. apply Exists_dec. intros c. apply _. Defined.

(** The record [is_node_ready] logs about a node without 'Ready' condition. *)
Definition no_ready_record (node : V1Node) : log_record :=
  {| record_level := ERROR;
     record_message :=
       MsgNoKubeletReady (name (metadata node)) (conditions (status node)) |}.

Definition readiness_errors (nodes : list V1Node) : list log_record :=
  no_ready_record <$> filter (λ node, ¬ has_ready_condition node) nodes.

(** The conditions the loop of [is_node_ready] looks at: those up to the
    first of type 'Ready', or all of them. *)
Definition inspected (node : V1Node) : nat :=
  match list_find (λ c, condition_type c = "Ready") (conditions (status node)) with
  | Some (i, _) => S i
  | None => length (conditions (status node))
  end.

(** The records [main] hands to the logger before the deletion step. *)
Definition announcement (all_nodes filtered_nodes : list V1Node) : list log_record :=
  [{| record_level := DEBUG; record_message := MsgFoundNodes (names_of all_nodes) |}]
  ++ readiness_errors all_nodes
  ++ [{| record_level := DEBUG;
         record_message := MsgNodesToBeDeleted (names_of filtered_nodes) |}].

(** The records of the two reporting loops of [main]. *)
Definition deletion_report (success : list string)
    (errors : list (string * ApiException)) : list log_record :=
  ((λ node_name, {| record_level := INFO; record_message := MsgDeleted node_name |})
     <$> success)
  ++ ((λ p, {| record_level := ERROR; record_message := MsgDeleteError p.1 p.2 |})
        <$> errors).

(** * Properties *)

(** ** The monad and the loop *)

Section Plumbing.
Context {C : Type}.
Implicit Types w : world C.

Lemma run_bind {A B} (m : M C A) (f : A → M C B) w :
  (m ≫= f) w =
  match m w with
  | (Val a, w') => f a w'
  | (Raise e, w') => (Raise e, w')
  end.
Proof. reflexivity. Qed.

Lemma run_bind_val {A B} (m : M C A) (f : A → M C B) w a w' :
  m w = (Val a, w') → (m ≫= f) w = f a w'.
Proof. intros H. rewrite run_bind, H. reflexivity. Qed.

Lemma run_bind_raise {A B} (m : M C A) (f : A → M C B) w e w' :
  m w = (Raise e, w') → (m ≫= f) w = (Raise e, w').
Proof. intros H. rewrite run_bind, H. reflexivity. Qed.

Lemma for_in_nil {A St R} (body : A → St → M C (ctl St R)) st w :
  for_in [] body st w = (Val (Continue st), w).
Proof. reflexivity. Qed.

Lemma for_in_cons {A St R} x xs (body : A → St → M C (ctl St R)) st w :
  for_in (x :: xs) body st w =
  match body x st (add_steps 1 w) with
  | (Val (Continue st'), w') => for_in xs body st' w'
  | (Val (Return r), w') => (Val (Return r), w')
  | (Raise e, w') => (Raise e, w')
  end.
Proof.
  simpl. rewrite run_bind. unfold tick. rewrite run_bind.
  destruct (body x st (add_steps 1 w)) as [[[st' | r] | e] w']; reflexivity.
Qed.

Lemma add_steps_add n k w : add_steps n (add_steps k w) = add_steps (n + k) w.
Proof. unfold add_steps. simpl. f_equal. lia. Qed.

Lemma add_steps_0 w : add_steps 0 w = w.
Proof. destruct w. reflexivity. Qed.

Lemma same_cluster_refl w : same_cluster w w.
Proof. split; reflexivity. Qed.

Lemma same_cluster_trans w1 w2 w3 :
  same_cluster w1 w2 → same_cluster w2 w3 → same_cluster w1 w3.
Proof. intros [H1 H2] [H3 H4]. split; congruence. Qed.

Lemma same_cluster_add_steps n w : same_cluster w (add_steps n w).
Proof. split; reflexivity. Qed.

Lemma same_cluster_emit r w : same_cluster w (emit r w).
Proof. split; reflexivity. Qed.

(** An [ERROR] record passes every level the logger can have. *)
Lemma log_error_run msg w :
  log ERROR msg w = (Val (), emit (Build_log_record ERROR msg) w).
Proof.
  unfold log. destruct (threshold w); simpl; reflexivity.
Qed.

Lemma log_run l msg w :
  ∃ w', log l msg w = (Val (), w') ∧ same_cluster w w' ∧
        threshold w' = threshold w ∧ steps w' = steps w.
Proof.
  unfold log. eexists. split; [reflexivity |].
  case_decide; repeat split; reflexivity.
Qed.

End Plumbing.

(** ** [is_node_ready] *)

Section Readiness.
Context {C : Type}.
Implicit Types w : world C.

(** The loop of [is_node_ready] stops at the first condition of type
    'Ready' and decides on that one alone. *)
Lemma ready_loop_run (conds : list V1NodeCondition) w :
  for_in (C := C) conds
    (λ condition (_ : ()),
       if decide (condition_type condition = "Ready") then
         if decide (condition_status condition = "Unknown") then
           mret (Return (PyBool false))
         else mret (Return (PyStr (condition_status condition)))
       else mret (Continue ()))
    () w =
  match list_find (λ c, condition_type c = "Ready") conds with
  | Some (i, c) =>
      (Val (Return (if decide (condition_status c = "Unknown")
                    then PyBool false else PyStr (condition_status c))),
       add_steps (S i) w)
  | None => (Val (Continue ()), add_steps (length conds) w)
  end.
Proof.
  revert w. induction conds as [| c conds IH]; intros w.
  - rewrite for_in_nil, add_steps_0. reflexivity.
  - rewrite for_in_cons. cbn [list_find].
    destruct (decide (condition_type c = "Ready")) as [Hty | Hty].
    + destruct (decide (condition_status c = "Unknown")); reflexivity.
    + cbn. rewrite IH.
      destruct (list_find _ conds) as [[i c'] |]; cbn;
        rewrite add_steps_add; do 2 f_equal; lia.
Qed.

Lemma is_node_ready_run (node : V1Node) w :
  is_node_ready node w =
  match list_find (λ c, condition_type c = "Ready") (conditions (status node)) with
  | Some (i, c) =>
      (Val (if decide (condition_status c = "Unknown")
            then PyBool false else PyStr (condition_status c)),
       add_steps (S i) w)
  | None =>
      (Val (PyBool true),
       emit {| record_level := ERROR;
               record_message :=
                 MsgNoKubeletReady (name (metadata node)) (conditions (status node)) |}
            (add_steps (length (conditions (status node))) w))
  end.
Proof.
  unfold is_node_ready. rewrite run_bind, ready_loop_run.
  destruct (list_find _ _) as [[i c] |]; [reflexivity |].
  rewrite run_bind, log_error_run. reflexivity.
Qed.

(** The call always returns a value, never touches the cluster, and costs
    at most one loop step per condition. *)
Lemma is_node_ready_returns (node : V1Node) w :
  ∃ ready w',
    is_node_ready node w = (Val ready, w') ∧ same_cluster w w' ∧
    threshold w' = threshold w ∧
    (steps w' ≤ length (conditions (status node)) + steps w)%nat.
Proof.
  rewrite is_node_ready_run.
  destruct (list_find _ _) as [[i c] |] eqn:Hfind.
  - apply list_find_Some in Hfind as (Hi & _ & _).
    apply lookup_lt_Some in Hi.
    eexists _, _. split; [reflexivity |].
    repeat split; simpl; lia.
  - eexists _, _. split; [reflexivity |]. repeat split; simpl; lia.
Qed.

End Readiness.

(** What it returns does not depend on the world it is called in. *)
Lemma is_node_ready_value_indep {C C'} (node : V1Node) (w : world C) (w0 : world C') :
  (is_node_ready node w).1 = (is_node_ready node w0).1.
Proof.
  rewrite !is_node_ready_run.
  destruct (list_find _ _) as [[i c] |]; reflexivity.
Qed.

Lemma says_not_ready_indep {C C'} (node : V1Node) (w : world C) (w0 : world C') :
  says_not_ready w node = says_not_ready w0 node.
Proof.
  unfold says_not_ready. rewrite (is_node_ready_value_indep node w w0). reflexivity.
Qed.

Lemma is_node_ready_says {C} (node : V1Node) (w : world C) :
  ∃ ready w',
    is_node_ready node w = (Val ready, w') ∧
    negb (truthy ready) = says_not_ready w node ∧
    same_cluster w w' ∧ threshold w' = threshold w ∧
    (steps w' ≤ length (conditions (status node)) + steps w)%nat.
Proof.
  destruct (is_node_ready_returns node w) as (ready & w' & Hrun & Hrest).
  exists ready, w'. split; [exact Hrun |]. split; [| exact Hrest].
  unfold says_not_ready. rewrite Hrun. reflexivity.
Qed.

(** ** [nodes_for_cleanup] *)

Section Cleanup.
Context {C : Type}.
Implicit Types w : world C.

(** Loop steps one call of [nodes_for_cleanup] may take: one per node, and
    one per condition of each node. *)
Lemma cleanup_loop_run {C'} (w0 : world C') (nodes acc : list V1Node) w :
  ∃ w',
    for_in (C := C) (R := Empty_set) nodes
      (λ node not_ready,
         ready ← is_node_ready node;
         if negb (truthy ready) then mret (Continue (not_ready ++ [node]))
         else mret (Continue not_ready))
      acc w =
    (Val (Continue (acc ++ filter (λ node, says_not_ready w0 node = true) nodes)), w') ∧
    same_cluster w w' ∧ threshold w' = threshold w ∧
    (steps w' ≤ length nodes
                + sum_list ((λ node, length (conditions (status node))) <$> nodes)
                + steps w)%nat.
Proof.
  revert acc w. induction nodes as [| node nodes IH]; intros acc w.
  - exists w. rewrite for_in_nil, filter_nil, app_nil_r.
    repeat split; simpl; lia.
  - rewrite for_in_cons.
    destruct (is_node_ready_says node (add_steps 1 w))
      as (ready & w1 & Hrun & Hsays & Hsame & Hthr & Hsteps).
    rewrite (says_not_ready_indep node _ w0) in Hsays.
    rewrite (run_bind_val _ _ _ _ _ Hrun), filter_cons.
    destruct (says_not_ready w0 node) eqn:Hnode; rewrite Hsays; cbn.
    + destruct (IH (acc ++ [node]) w1) as (w' & Hloop & Hsame' & Hthr' & Hsteps').
      exists w'. rewrite Hloop.
      rewrite decide_True by reflexivity. rewrite <- app_assoc.
      split; [reflexivity |].
      split; [eapply same_cluster_trans, Hsame'; eapply same_cluster_trans, Hsame;
              apply same_cluster_add_steps |].
      unfold add_steps in *; simpl in *. split; [congruence | lia].
    + destruct (IH acc w1) as (w' & Hloop & Hsame' & Hthr' & Hsteps').
      exists w'. rewrite Hloop.
      rewrite decide_False by discriminate.
      split; [reflexivity |].
      split; [eapply same_cluster_trans, Hsame'; eapply same_cluster_trans, Hsame;
              apply same_cluster_add_steps |].
      unfold add_steps in *; simpl in *. split; [congruence | lia].
Qed.

Lemma nodes_for_cleanup_run {C'} (w0 : world C') (nodes : list V1Node) w :
  ∃ w',
    nodes_for_cleanup nodes w =
    (Val (filter (λ node, says_not_ready w0 node = true) nodes), w') ∧
    same_cluster w w' ∧ threshold w' = threshold w ∧
    (steps w' ≤ length nodes
                + sum_list ((λ node, length (conditions (status node))) <$> nodes)
                + steps w)%nat.
Proof.
  destruct (cleanup_loop_run w0 nodes [] w) as (w' & Hloop & Hrest).
  exists w'. split; [| exact Hrest].
  unfold nodes_for_cleanup. rewrite (run_bind_val _ _ _ _ _ Hloop). reflexivity.
Qed.

Lemma node_names_run (nodes : list V1Node) w :
  node_names nodes w = (Val (names_of nodes), add_steps (length nodes) w).
Proof.
  unfold node_names.
  assert (∀ acc w,
    for_in (C := C) (R := Empty_set) nodes
      (λ node acc, mret (Continue (acc ++ [name (metadata node)]))) acc w =
    (Val (Continue (acc ++ names_of nodes)), add_steps (length nodes) w)) as Hloop.
  { clear w. induction nodes as [| node nodes IH]; intros acc w.
    - rewrite for_in_nil, add_steps_0, app_nil_r. reflexivity.
    - rewrite for_in_cons. cbn. rewrite IH, add_steps_add, <- app_assoc.
      do 2 f_equal. f_equal. lia. }
  rewrite (run_bind_val _ _ _ _ _ (Hloop [] w)). reflexivity.
Qed.

End Cleanup.

(** ** [terminate_nodes] *)

Section Termination.
Context {C : Type} `{!KubeApi C}.
Implicit Types w : world C.

Lemma core_delete_node_run (node : string) w :
  ∃ r c',
    delete_node node (cluster w) = (r, c') ∧
    core_delete_node node w =
    (match r with
     | Deleted => Val ()
     | ApiFailure e => Raise (ExApi e)
     | Crash what => Raise (ExOther what)
     end,
     World c' (requests w ++ [(node, r)]) (threshold w) (records w) (steps w)).
Proof.
  unfold core_delete_node.
  destruct (delete_node node (cluster w)) as [r c'] eqn:Hdel.
  exists r, c'. split; [reflexivity |]. destruct r; reflexivity.
Qed.

(** The body of the loop of [terminate_nodes], as it stands in the
    definition. *)
Local Abbreviation terminate_body :=
  (λ (node : string) '(success, errors),
     caught ← try_except
                (core_delete_node node;; mret None)
                (λ e, mret (Some (errors ++ [(node, e)])));
     match caught with
     | Some errors' => mret (Continue (R := Empty_set) (success, errors'))
     | None => mret (Continue (success ++ [node], errors))
     end).

(** One execution of the body, by the answer the request gets. *)
Lemma terminate_body_run (node : string) (success : list string)
    (errors : list (string * ApiException)) w :
  ∃ r c',
    delete_node node (cluster w) = (r, c') ∧
    terminate_body node (success, errors) w =
    (match r with
     | Deleted => Val (Continue (success ++ [node], errors))
     | ApiFailure e => Val (Continue (success, errors ++ [(node, e)]))
     | Crash what => Raise (ExOther what)
     end,
     World c' (requests w ++ [(node, r)]) (threshold w) (records w) (steps w)).
Proof.
  destruct (core_delete_node_run node w) as (r & c' & Hdel & Hrun).
  exists r, c'. split; [exact Hdel |].
  cbn beta iota. rewrite run_bind. unfold try_except. rewrite run_bind, Hrun.
  destruct r; reflexivity.
Qed.

(** The bookkeeping shared by the two cases in which the loop goes on. *)
Local Ltac loop_goes_on Hreq Hserved Hthr Hrec Hsteps Hdel :=
  split; [rewrite Hreq; simpl; rewrite <- app_assoc; reflexivity |];
  split; [econstructor; [exact Hdel | exact Hserved] |];
  split; [rewrite Hthr; reflexivity |];
  split; [rewrite Hrec; reflexivity |];
  split; [rewrite Hsteps; simpl; lia |].

(** What one run of the loop of [terminate_nodes] does, from any values of
    its two accumulators: either every node is requested once, in order,
    and the answers are sorted into the two lists; or a request ends in an
    exception that is not an [ApiException], and that request is the last. *)
Lemma terminate_loop_run (nodes success : list string)
    (errors : list (string * ApiException)) w :
  ∃ new w',
    requests w' = requests w ++ new ∧
    served (cluster w) new (cluster w') ∧
    threshold w' = threshold w ∧ records w' = records w ∧
    steps w' = (length new + steps w)%nat ∧
    ((for_in nodes terminate_body (success, errors) w =
      (Val (Continue (success ++ (filter (λ req, req.2 = Deleted) new).*1,
                      errors ++ omap api_error new)), w') ∧
      new.*1 = nodes ∧ Forall (λ req, ¬ crashed req) new)
     ∨
     (∃ pre node what,
        for_in nodes terminate_body (success, errors) w = (Raise (ExOther what), w') ∧
        new = pre ++ [(node, Crash what)] ∧
        Forall (λ req, ¬ crashed req) pre ∧
        new.*1 `prefix_of` nodes ∧
        (length new ≤ length nodes)%nat)).
Proof.
  revert success errors w.
  induction nodes as [| node nodes IH]; intros success errors w.
  - exists [], w. rewrite for_in_nil, !app_nil_r. simpl.
    repeat split; [constructor |]. left. repeat split. constructor.
  - rewrite for_in_cons.
    destruct (terminate_body_run node success errors (add_steps 1 w))
      as (r & c1 & Hdel & Hbody).
    simpl in Hdel. rewrite Hbody.
    destruct r as [| e | what].
    + (* the request succeeded *)
      destruct (IH (success ++ [node]) errors
                  (World c1 (requests (add_steps 1 w) ++ [(node, Deleted)])
                     (threshold (add_steps 1 w)) (records (add_steps 1 w))
                     (steps (add_steps 1 w))))
        as (new & w' & Hreq & Hserved & Hthr & Hrec & Hsteps & Hcases).
      exists ((node, Deleted) :: new), w'.
      loop_goes_on Hreq Hserved Hthr Hrec Hsteps Hdel.
      destruct Hcases
        as [(Hloop & Hnames & Hok) | (pre & n & what & Hloop & Hnew & Hpre & Hpfx & Hlen)].
      * left. rewrite Hloop, filter_cons, decide_True by reflexivity.
        cbn. rewrite <- app_assoc.
        repeat split; [congruence |].
        constructor; [intros [what Hwhat]; discriminate | exact Hok].
      * right. exists ((node, Deleted) :: pre), n, what.
        split; [exact Hloop |]. split; [rewrite Hnew; reflexivity |].
        split; [constructor; [intros [x Hx]; discriminate | exact Hpre] |].
        split; [cbn; apply prefix_cons, Hpfx | simpl; lia].
    + (* the request raised ApiException *)
      destruct (IH success (errors ++ [(node, e)])
                  (World c1 (requests (add_steps 1 w) ++ [(node, ApiFailure e)])
                     (threshold (add_steps 1 w)) (records (add_steps 1 w))
                     (steps (add_steps 1 w))))
        as (new & w' & Hreq & Hserved & Hthr & Hrec & Hsteps & Hcases).
      exists ((node, ApiFailure e) :: new), w'.
      loop_goes_on Hreq Hserved Hthr Hrec Hsteps Hdel.
      destruct Hcases
        as [(Hloop & Hnames & Hok) | (pre & n & what & Hloop & Hnew & Hpre & Hpfx & Hlen)].
      * left. rewrite Hloop, filter_cons, decide_False by discriminate.
        cbn. rewrite <- app_assoc.
        repeat split; [congruence |].
        constructor; [intros [what Hwhat]; discriminate | exact Hok].
      * right. exists ((node, ApiFailure e) :: pre), n, what.
        split; [exact Hloop |]. split; [rewrite Hnew; reflexivity |].
        split; [constructor; [intros [x Hx]; discriminate | exact Hpre] |].
        split; [cbn; apply prefix_cons, Hpfx | simpl; lia].
    + (* the request raised something else: the loop is left *)
      exists [(node, Crash what)],
        (World c1 (requests (add_steps 1 w) ++ [(node, Crash what)])
           (threshold (add_steps 1 w)) (records (add_steps 1 w))
           (steps (add_steps 1 w))).
      split; [reflexivity |].
      split; [econstructor; [exact Hdel | constructor] |].
      split; [reflexivity |]. split; [reflexivity |].
      split; [simpl; lia |].
      right. exists [], node, what.
      split; [reflexivity |]. split; [reflexivity |].
      split; [constructor |].
      split; [cbn; apply prefix_cons, prefix_nil | simpl; lia].
Qed.

End Termination.

Section TerminateNodes.
Context {C : Type} `{!KubeApi C}.
Implicit Types w : world C.

Lemma terminate_nodes_run (nodes : list string) w :
  ∃ new w',
    requests w' = requests w ++ new ∧
    served (cluster w) new (cluster w') ∧
    threshold w' = threshold w ∧ records w' = records w ∧
    steps w' = (length new + steps w)%nat ∧
    ((terminate_nodes nodes w =
      (Val ((filter (λ req, req.2 = Deleted) new).*1, omap api_error new), w') ∧
      new.*1 = nodes ∧ Forall (λ req, ¬ crashed req) new)
     ∨
     (∃ pre node what,
        terminate_nodes nodes w = (Raise (ExOther what), w') ∧
        new = pre ++ [(node, Crash what)] ∧
        Forall (λ req, ¬ crashed req) pre ∧
        new.*1 `prefix_of` nodes ∧
        (length new ≤ length nodes)%nat)).
Proof.
  destruct (terminate_loop_run nodes [] [] w)
    as (new & w' & Hreq & Hserved & Hthr & Hrec & Hsteps & Hcases).
  exists new, w'. do 5 (split; [assumption |]).
  unfold terminate_nodes.
  destruct Hcases as [(Hloop & Hnames & Hok) | (pre & n & what & Hloop & Hrest)].
  - left. rewrite (run_bind_val _ _ _ _ _ Hloop). auto.
  - right. exists pre, n, what.
    rewrite (run_bind_raise _ _ _ _ _ Hloop). auto.
Qed.

(** Reading the two returned lists back from the answers. *)
Lemma deleted_names_sublist (new : list (string * delete_result)) :
  (filter (λ req, req.2 = Deleted) new).*1 `sublist_of` new.*1.
Proof. apply fmap_sublist, sublist_filter. Qed.

Lemma api_error_names_sublist (new : list (string * delete_result)) :
  (omap api_error new).*1 `sublist_of` new.*1.
Proof.
  induction new as [| [n r] new IH]; [constructor |].
  destruct r; cbn; [apply sublist_cons, IH | apply sublist_skip, IH | apply sublist_cons, IH].
Qed.

Lemma answers_partition (new : list (string * delete_result)) :
  Forall (λ req, ¬ crashed req) new →
  (filter (λ req, req.2 = Deleted) new).*1 ++ (omap api_error new).*1 ≡ₚ new.*1 ∧
  (length (filter (λ req, req.2 = Deleted) new) + length (omap api_error new)
   = length new)%nat.
Proof.
  induction 1 as [| [n r] new Hr Hok [IHp IHl]]; [split; reflexivity |].
  destruct r as [| e | what].
  - rewrite filter_cons, decide_True by reflexivity. cbn.
    split; [rewrite IHp; reflexivity | lia].
  - rewrite filter_cons, decide_False by discriminate. cbn.
    split; [rewrite <- Permutation_middle, IHp; reflexivity | lia].
  - exfalso. apply Hr. eexists. reflexivity.
Qed.

Lemma no_api_error_iff (new : list (string * delete_result)) :
  Forall (λ req, ¬ crashed req) new →
  omap api_error new = [] ↔ Forall (λ req, ¬ failed req) new.
Proof.
  induction 1 as [| [n r] new Hr Hok IH]; [split; [constructor | reflexivity] |].
  destruct r as [| e | what]; cbn.
  - rewrite IH. split.
    + intros Hall. constructor; [intros Hf; apply Hf; reflexivity | exact Hall].
    + intros Hall. inversion Hall; assumption.
  - split; [discriminate |].
    intros Hall. inversion Hall as [| ? ? Hhd ?]. exfalso. apply Hhd. discriminate.
  - exfalso. apply Hr. eexists. reflexivity.
Qed.

End TerminateNodes.

(** ** [main] *)

Section Main.
Context {C : Type} `{!KubeApi C}.
Implicit Types w : world C.

(** A loop whose body only logs runs to its end and leaves the cluster
    alone. *)
Lemma for_in_logging {A St} (xs : list A) (body : A → St → M C (ctl St Empty_set)) st w :
  (∀ x st w, ∃ st' w',
      body x st w = (Val (Continue st'), w') ∧ same_cluster w w' ∧
      threshold w' = threshold w ∧ steps w' = steps w) →
  ∃ st' w',
    for_in xs body st w = (Val (Continue st'), w') ∧ same_cluster w w' ∧
    threshold w' = threshold w ∧ steps w' = (length xs + steps w)%nat.
Proof.
  intros Hbody. revert st w. induction xs as [| x xs IH]; intros st w.
  - exists st, w. rewrite for_in_nil. repeat split; reflexivity.
  - rewrite for_in_cons.
    destruct (Hbody x st (add_steps 1 w)) as (st1 & w1 & Hrun & [Hc Hr] & Hthr & Hsteps).
    rewrite Hrun.
    destruct (IH st1 w1) as (st' & w' & Hloop & [Hc' Hr'] & Hthr' & Hsteps').
    exists st', w'. split; [exact Hloop |].
    simpl in *. repeat split; try congruence. lia.
Qed.

Lemma report_run (success : list string) (errors : list (string * ApiException)) w :
  ∃ w',
    report success errors w =
    (match errors with [] => Val () | _ :: _ => Raise (SystemExit 1) end, w') ∧
    same_cluster w w' ∧
    steps w' = (length success + length errors + steps w)%nat.
Proof.
  unfold report.
  destruct (for_in_logging success
              (λ node_name (_ : ()), log INFO (MsgDeleted node_name);; mret (Continue ()))
              () w) as (st1 & w1 & Hrun1 & Hsame1 & Hthr1 & Hsteps1).
  { intros x st0 w0. destruct (log_run INFO (MsgDeleted x) w0) as (w' & Hlog & Hrest).
    exists (), w'. rewrite (run_bind_val _ _ _ _ _ Hlog). auto. }
  destruct (for_in_logging errors
              (λ '(node_name, exception) (_ : ()),
                 log ERROR (MsgDeleteError node_name exception);; mret (Continue ()))
              () w1) as (st2 & w2 & Hrun2 & Hsame2 & Hthr2 & Hsteps2).
  { intros [n e] st0 w0.
    destruct (log_run ERROR (MsgDeleteError n e) w0) as (w' & Hlog & Hrest).
    exists (), w'. rewrite (run_bind_val _ _ _ _ _ Hlog). auto. }
  exists w2.
  rewrite (run_bind_val _ _ _ _ _ Hrun1), (run_bind_val _ _ _ _ _ Hrun2).
  split; [destruct errors; reflexivity |].
  split; [eapply same_cluster_trans; eassumption | lia].
Qed.

End Main.

Section MainRun.
Context {C : Type} `{!KubeApi C}.
Implicit Types w : world C.

Lemma delete_step_dry (filtered_nodes : list V1Node) w :
  ∃ w',
    delete_step true filtered_nodes w = (Val ([], []), w') ∧
    same_cluster w w' ∧ steps w' = steps w.
Proof.
  unfold delete_step. simpl.
  destruct (log_run INFO MsgDryRun w) as (w' & Hlog & Hsame & _ & Hsteps).
  exists w'. rewrite (run_bind_val _ _ _ _ _ Hlog). auto.
Qed.

Lemma delete_step_wet (filtered_nodes : list V1Node) w :
  delete_step false filtered_nodes w =
  terminate_nodes (names_of filtered_nodes) (add_steps (length filtered_nodes) w).
Proof.
  unfold delete_step. simpl.
  rewrite (run_bind_val _ _ _ _ _ (node_names_run filtered_nodes w)). reflexivity.
Qed.

(** The two calls that obtain the node list return it or raise, and leave
    the world as it is. *)
Lemma list_all_nodes_run w :
  list_all_nodes w =
  (match listing (cluster w) with
   | Answered all_nodes => Val all_nodes
   | ApiError e => Raise (ExApi e)
   | Failure what => Raise (ExOther what)
   end, w).
Proof.
  unfold list_all_nodes, KubeClient, call, listing. rewrite run_bind.
  destruct (new_client (cluster w)) as [[] | e | what]; reflexivity.
Qed.

Lemma list_all_nodes_ok (all_nodes : list V1Node) w :
  listing (cluster w) = Answered all_nodes →
  list_all_nodes w = (Val all_nodes, w).
Proof. intros Hlist. rewrite list_all_nodes_run, Hlist. reflexivity. Qed.

(** The part of [main] before the deletion step: it returns the filtered
    list and sends nothing to the cluster. *)
Lemma main_prefix_run {C'} (w0 : world C') (args : Namespace)
    (all_nodes : list V1Node) w :
  listing (cluster w) = Answered all_nodes →
  ∃ w1,
    (basicConfig (if verbose args then DEBUG else WARNING);;
     all_nodes ← list_all_nodes;
     found ← node_names all_nodes;
     log DEBUG (MsgFoundNodes found);;
     filtered_nodes ← nodes_for_cleanup all_nodes;
     to_delete ← node_names filtered_nodes;
     log DEBUG (MsgNodesToBeDeleted to_delete);;
     mret filtered_nodes) w =
    (Val (filter (λ node, says_not_ready w0 node = true) all_nodes), w1) ∧
    same_cluster w w1.
Proof.
  intros Hlist.
  set (lvl := if verbose args then DEBUG else WARNING).
  set (wa := World (cluster w) (requests w) lvl (records w) (steps w)).
  assert (basicConfig lvl w = (Val (), wa)) as Ha by reflexivity.
  assert (list_all_nodes wa = (Val all_nodes, wa)) as Hb
    by (apply list_all_nodes_ok; exact Hlist).
  pose proof (node_names_run all_nodes wa) as Hc.
  destruct (log_run DEBUG (MsgFoundNodes (names_of all_nodes))
              (add_steps (length all_nodes) wa)) as (wd & Hd & Hsd & _).
  destruct (nodes_for_cleanup_run w0 all_nodes wd) as (we & He & Hse & _).
  set (filtered := filter (λ node, says_not_ready w0 node = true) all_nodes) in *.
  pose proof (node_names_run filtered we) as Hf.
  destruct (log_run DEBUG (MsgNodesToBeDeleted (names_of filtered))
              (add_steps (length filtered) we)) as (wg & Hg & Hsg & _).
  exists wg.
  rewrite (run_bind_val _ _ _ _ _ Ha), (run_bind_val _ _ _ _ _ Hb),
    (run_bind_val _ _ _ _ _ Hc), (run_bind_val _ _ _ _ _ Hd),
    (run_bind_val _ _ _ _ _ He), (run_bind_val _ _ _ _ _ Hf),
    (run_bind_val _ _ _ _ _ Hg).
  split; [reflexivity |].
  destruct Hsd as [? ?], Hse as [? ?], Hsg as [? ?].
  subst wa. simpl in *. split; congruence.
Qed.

Lemma main_unfold (args : Namespace) w :
  main args w =
  ((basicConfig (if verbose args then DEBUG else WARNING);;
    all_nodes ← list_all_nodes;
    found ← node_names all_nodes;
    log DEBUG (MsgFoundNodes found);;
    filtered_nodes ← nodes_for_cleanup all_nodes;
    to_delete ← node_names filtered_nodes;
    log DEBUG (MsgNodesToBeDeleted to_delete);;
    mret filtered_nodes) ≫=
   (λ filtered_nodes,
      '(success, errors) ← delete_step (dry_run args) filtered_nodes;
      report success errors)) w.
Proof.
  unfold main. rewrite !run_bind.
  destruct (basicConfig _ w) as [[[] | e] wa]; [| reflexivity].
  rewrite !run_bind.
  destruct (list_all_nodes wa) as [[all_nodes | e] wb]; [| reflexivity].
  rewrite !run_bind.
  destruct (node_names all_nodes wb) as [[found | e] wc]; [| reflexivity].
  rewrite !run_bind.
  destruct (log DEBUG _ wc) as [[[] | e] wd]; [| reflexivity].
  rewrite !run_bind.
  destruct (nodes_for_cleanup all_nodes wd) as [[filtered | e] we]; [| reflexivity].
  rewrite !run_bind.
  destruct (node_names filtered we) as [[to_delete | e] wf]; [| reflexivity].
  rewrite !run_bind.
  destruct (log DEBUG _ wf) as [[[] | e] wg]; reflexivity.
Qed.

(** When the node list cannot be obtained the exception escapes from
    [main]: only the logger's level has changed by then. *)
Lemma main_listing_fails (args : Namespace) w :
  (∀ e, listing (cluster w) = ApiError e →
        main args w
        = (Raise (ExApi e), with_level (if verbose args then DEBUG else WARNING) w)) ∧
  (∀ what, listing (cluster w) = Failure what →
           main args w
           = (Raise (ExOther what),
              with_level (if verbose args then DEBUG else WARNING) w)).
Proof.
  assert (∀ x, list_all_nodes (with_level (if verbose args then DEBUG else WARNING) w)
               = (Raise x, with_level (if verbose args then DEBUG else WARNING) w) →
               main args w
               = (Raise x, with_level (if verbose args then DEBUG else WARNING) w))
    as Hescape.
  { intros x Hlist. unfold main. rewrite run_bind. cbn [basicConfig].
    change (basicConfig (if verbose args then DEBUG else WARNING) w)
      with (Val (), with_level (if verbose args then DEBUG else WARNING) w).
    cbn beta iota. rewrite (run_bind_raise _ _ _ _ _ Hlist). reflexivity. }
  split; intros x Hx; apply Hescape; rewrite list_all_nodes_run;
    cbn [cluster with_level]; rewrite Hx; reflexivity.
Qed.

(** One run of the script, from any world. *)
Lemma main_run {C'} (w0 : world C') (args : Namespace)
    (all_nodes : list V1Node) w :
  listing (cluster w) = Answered all_nodes →
  ∃ new w',
    requests w' = requests w ++ new ∧
    served (cluster w) new (cluster w') ∧
    if dry_run args then
      new = [] ∧ main args w = (Val (), w')
    else
      (new.*1 = names_of (filter (λ node, says_not_ready w0 node = true)
                            all_nodes) ∧
       Forall (λ req, ¬ crashed req) new ∧
       main args w =
       (match omap api_error new with
        | [] => Val ()
        | _ :: _ => Raise (SystemExit 1)
        end, w'))
      ∨
      (∃ pre node what,
         main args w = (Raise (ExOther what), w') ∧
         new = pre ++ [(node, Crash what)] ∧
         Forall (λ req, ¬ crashed req) pre ∧
         new.*1 `prefix_of`
           names_of (filter (λ node, says_not_ready w0 node = true)
                       all_nodes)).
Proof.
  intros Hlist.
  destruct (main_prefix_run w0 args all_nodes w Hlist) as (w1 & Hpre & Hc1 & Hr1).
  rewrite main_unfold, (run_bind_val _ _ _ _ _ Hpre).
  set (filtered := filter _ _) in *.
  destruct (dry_run args).
  - destruct (delete_step_dry filtered w1) as (w2 & Hstep & [Hc2 Hr2] & _).
    rewrite (run_bind_val _ _ _ _ _ Hstep).
    destruct (report_run [] [] w2) as (w3 & Hrep & [Hc3 Hr3] & _).
    exists [], w3. rewrite app_nil_r.
    split; [congruence |].
    split; [replace (cluster w3) with (cluster w) by congruence; constructor |].
    split; [reflexivity | exact Hrep].
  - rewrite run_bind, delete_step_wet.
    destruct (terminate_nodes_run (names_of filtered) (add_steps (length filtered) w1))
      as (new & w2 & Hreq & Hserved & _ & _ & _ & Hcases).
    simpl in Hreq, Hserved. rewrite Hc1 in Hserved. rewrite Hr1 in Hreq.
    destruct Hcases as [(Hrun & Hnames & Hok) | (pre & n & what & Hrun & Hnew & Hpre' & Hpfx & _)].
    + rewrite Hrun.
      destruct (report_run (filter (λ req, req.2 = Deleted) new).*1 (omap api_error new) w2)
        as (w3 & Hrep & [Hc3 Hr3] & _).
      exists new, w3.
      split; [congruence |]. split; [rewrite Hc3; exact Hserved |].
      left. split; [exact Hnames |]. split; [exact Hok |]. exact Hrep.
    + rewrite Hrun. exists new, w2.
      split; [exact Hreq |]. split; [exact Hserved |].
      right. exists pre, n, what. auto.
Qed.

End MainRun.


(** * The specified behaviour *)

(** ** Selection *)

(** C1: a node whose first 'Ready' condition has status "False" is handed
    back that string by [is_node_ready]; the string is not empty, so Python
    takes it for true and [nodes_for_cleanup] leaves the node out.  The
    script was meant to select such a node and does not. *)
Theorem false_ready_status_not_selected {C} (node : V1Node) (i : nat)
    (c : V1NodeCondition) (nodes : list V1Node) (w : world C) :
  list_find (λ c, condition_type c = "Ready") (conditions (status node)) = Some (i, c) →
  condition_status c = "False" →
  (is_node_ready node w).1 = Val (PyStr "False") ∧
  says_not_ready w node = false ∧
  ∃ selected w',
    nodes_for_cleanup nodes w = (Val selected, w') ∧ node ∉ selected.
Proof.
  intros Hfind Hstatus.
  assert ((is_node_ready node w).1 = Val (PyStr "False")) as Hval.
  { rewrite is_node_ready_run, Hfind, Hstatus. reflexivity. }
  assert (says_not_ready w node = false) as Hsays.
  { unfold says_not_ready. rewrite Hval. reflexivity. }
  split; [exact Hval |]. split; [exact Hsays |].
  destruct (nodes_for_cleanup_run w nodes w) as (w' & Hrun & _).
  eexists _, w'. split; [exact Hrun |].
  rewrite list_elem_of_filter, Hsays. intros [Habs _]. discriminate.
Qed.

Lemma false_ready_status_not_selected_witness :
  list_find (λ c, condition_type c = "Ready") (conditions (status Sample.down))
  = Some (1%nat, {| condition_type := "Ready"; condition_status := "False" |}) ∧
  (is_node_ready Sample.down (fresh Sample.up)).1 = Val (PyStr "False") ∧
  says_not_ready (fresh Sample.up) Sample.down = false ∧
  ∃ selected w',
    nodes_for_cleanup [Sample.healthy; Sample.down] (fresh Sample.up) = (Val selected, w') ∧
    Sample.down ∉ selected.
Proof.
  split; [reflexivity |].
  apply (false_ready_status_not_selected Sample.down 1
           {| condition_type := "Ready"; condition_status := "False" |});
    reflexivity.
Defined.

(** C2: [nodes_for_cleanup] is a filter.  Called in any world, it returns
    the nodes of its argument for which [not is_node_ready(node)] holds, in
    the order of the argument; the verdict on a node is the same in every
    world and is fixed by the node's status field; and the call sends
    nothing to the cluster. *)
Theorem nodes_for_cleanup_is_filter {C C'} (w0 : world C') (nodes : list V1Node)
    (w : world C) :
  (∃ w',
     nodes_for_cleanup nodes w =
     (Val (filter (λ node, says_not_ready w0 node = true) nodes), w') ∧
     same_cluster w w') ∧
  (∀ node node' : V1Node,
     status node = status node' → says_not_ready w0 node = says_not_ready w0 node').
Proof.
  split.
  - destruct (nodes_for_cleanup_run w0 nodes w) as (w' & Hrun & Hsame & _).
    exists w'. split; assumption.
  - intros node node' Heq. unfold says_not_ready.
    rewrite !is_node_ready_run, Heq.
    destruct (list_find _ _) as [[i c] |]; reflexivity.
Qed.

(** C8: a node whose first 'Ready' condition has status "Unknown" makes
    [is_node_ready] return [False], and [nodes_for_cleanup] selects it from
    any list it occurs in. *)
Theorem unknown_ready_status_selected {C} (node : V1Node) (i : nat)
    (c : V1NodeCondition) (nodes : list V1Node) (w : world C) :
  list_find (λ c, condition_type c = "Ready") (conditions (status node)) = Some (i, c) →
  condition_status c = "Unknown" →
  node ∈ nodes →
  (is_node_ready node w).1 = Val (PyBool false) ∧
  ∃ selected w',
    nodes_for_cleanup nodes w = (Val selected, w') ∧ node ∈ selected.
Proof.
  intros Hfind Hstatus Hin.
  assert ((is_node_ready node w).1 = Val (PyBool false)) as Hval.
  { rewrite is_node_ready_run, Hfind, Hstatus. reflexivity. }
  split; [exact Hval |].
  destruct (nodes_for_cleanup_run w nodes w) as (w' & Hrun & _).
  eexists _, w'. split; [exact Hrun |].
  rewrite list_elem_of_filter. split; [| exact Hin].
  unfold says_not_ready. rewrite Hval. reflexivity.
Qed.

Lemma unknown_ready_status_selected_witness :
  Sample.lost ∈ [Sample.healthy; Sample.lost] ∧
  (is_node_ready Sample.lost (fresh Sample.up)).1 = Val (PyBool false) ∧
  ∃ selected w',
    nodes_for_cleanup [Sample.healthy; Sample.lost] (fresh Sample.up) = (Val selected, w') ∧
    Sample.lost ∈ selected.
Proof.
  assert (Sample.lost ∈ [Sample.healthy; Sample.lost]) as Hin
    by (apply list_elem_of_further, list_elem_of_here).
  split; [exact Hin |].
  apply (unknown_ready_status_selected Sample.lost 0
           {| condition_type := "Ready"; condition_status := "Unknown" |});
    [reflexivity | reflexivity | exact Hin].
Defined.

(** C9: a node with no condition of type 'Ready' is taken for ready:
    [is_node_ready] walks the whole list, logs one error naming the node and
    its conditions, and returns [True]; [nodes_for_cleanup] never selects
    the node. *)
Theorem no_ready_condition_counts_as_ready {C} (node : V1Node)
    (nodes : list V1Node) (w : world C) :
  Forall (λ c, condition_type c ≠ "Ready") (conditions (status node)) →
  is_node_ready node w =
  (Val (PyBool true),
   emit {| record_level := ERROR;
           record_message :=
             MsgNoKubeletReady (name (metadata node)) (conditions (status node)) |}
        (add_steps (length (conditions (status node))) w)) ∧
  ∃ selected w',
    nodes_for_cleanup nodes w = (Val selected, w') ∧ node ∉ selected.
Proof.
  intros Hnone.
  assert (list_find (λ c, condition_type c = "Ready") (conditions (status node)) = None)
    as Hfind by (apply list_find_None; exact Hnone).
  assert (is_node_ready node w =
          (Val (PyBool true),
           emit {| record_level := ERROR;
                   record_message :=
                     MsgNoKubeletReady (name (metadata node)) (conditions (status node)) |}
                (add_steps (length (conditions (status node))) w))) as Hrun
    by (rewrite is_node_ready_run, Hfind; reflexivity).
  split; [exact Hrun |].
  destruct (nodes_for_cleanup_run w nodes w) as (w' & Hsel & _).
  eexists _, w'. split; [exact Hsel |].
  rewrite list_elem_of_filter. unfold says_not_ready. rewrite Hrun.
  intros [Habs _]. discriminate.
Qed.

Lemma no_ready_condition_counts_as_ready_witness :
  Forall (λ c, condition_type c ≠ "Ready") (conditions (status Sample.silent)) ∧
  (is_node_ready Sample.silent (fresh Sample.up)).1 = Val (PyBool true) ∧
  ∃ selected w',
    nodes_for_cleanup [Sample.silent; Sample.gone] (fresh Sample.up) = (Val selected, w') ∧
    Sample.silent ∉ selected.
Proof.
  assert (Forall (λ c, condition_type c ≠ "Ready") (conditions (status Sample.silent)))
    as Hnone by (repeat constructor; discriminate).
  split; [exact Hnone |].
  destruct (no_ready_condition_counts_as_ready Sample.silent
              [Sample.silent; Sample.gone] (fresh Sample.up) Hnone) as [Hrun Hsel].
  split; [rewrite Hrun; reflexivity | exact Hsel].
Defined.

(** C10: the output of [nodes_for_cleanup] is a sublist of its input, and
    running [nodes_for_cleanup] on that output, in any world, returns it
    unchanged. *)
Theorem nodes_for_cleanup_idempotent {C} (nodes : list V1Node) (w w1 : world C) :
  ∃ selected w',
    nodes_for_cleanup nodes w = (Val selected, w') ∧
    selected `sublist_of` nodes ∧
    (nodes_for_cleanup selected w1).1 = Val selected.
Proof.
  destruct (nodes_for_cleanup_run w nodes w) as (w' & Hrun & _).
  eexists _, w'. split; [exact Hrun |].
  split; [apply sublist_filter |].
  destruct (nodes_for_cleanup_run w (filter (λ node, says_not_ready w node = true) nodes) w1)
    as (w'' & Hagain & _).
  rewrite Hagain. cbn. f_equal.
  rewrite list_filter_filter. apply list_filter_iff. tauto.
Qed.

(** ** Deletion *)

(** C4: [terminate_nodes] requests the deletions in the order of its
    argument and sorts the answers into its two lists.  An [ApiException]
    never stops the loop.  Either every node is requested exactly once and
    the returned pair splits the argument in two, each part in the order of
    the argument; or some request raises an exception that is not an
    [ApiException], which ends the loop there: the requests made are then a
    prefix of the argument, none before the last one having raised such an
    exception, and no pair is returned. *)
Theorem terminate_nodes_collects_api_failures {C} `{!KubeApi C}
    (nodes : list string) (w : world C) :
  ∃ new w',
    requests w' = requests w ++ new ∧
    served (cluster w) new (cluster w') ∧
    new.*1 `prefix_of` nodes ∧
    ((∃ success errors,
        terminate_nodes nodes w = (Val (success, errors), w') ∧
        new.*1 = nodes ∧
        Forall (λ req, ¬ crashed req) new ∧
        success = (filter (λ req, req.2 = Deleted) new).*1 ∧
        errors = omap api_error new ∧
        success `sublist_of` nodes ∧
        errors.*1 `sublist_of` nodes ∧
        success ++ errors.*1 ≡ₚ nodes ∧
        (length success + length errors = length nodes)%nat)
     ∨
     (∃ pre node what,
        terminate_nodes nodes w = (Raise (ExOther what), w') ∧
        new = pre ++ [(node, Crash what)] ∧
        Forall (λ req, ¬ crashed req) pre)).
Proof.
  destruct (terminate_nodes_run nodes w)
    as (new & w' & Hreq & Hserved & _ & _ & _ & Hcases).
  exists new, w'. split; [exact Hreq |]. split; [exact Hserved |].
  destruct Hcases as [(Hrun & Hnames & Hok) | (pre & n & what & Hrun & Hnew & Hpre & Hpfx & _)].
  - subst nodes. split; [reflexivity |].
    left. eexists _, _. split; [exact Hrun |].
    destruct (answers_partition new Hok) as [Hperm Hlen].
    repeat split; try assumption.
    + apply deleted_names_sublist.
    + apply api_error_names_sublist.
    + rewrite !length_fmap. exact Hlen.
  - split; [exact Hpfx |]. right. exists pre, n, what. auto.
Qed.

(** C4, as first stated, fails when the control plane cannot be reached:
    the first request raises the HTTP library's own error, the loop is left,
    and the second node is never requested. *)
Lemma terminate_nodes_aborts_on_crash :
  (terminate_nodes ["node-c"; "node-e"] (fresh Sample.unreachable)).1
  = Raise (ExOther "MaxRetryError") ∧
  (requests (terminate_nodes ["node-c"; "node-e"] (fresh Sample.unreachable)).2).*1
  = ["node-c"] ∧
  (requests (terminate_nodes ["node-c"; "node-e"] (fresh Sample.unreachable)).2).*1
  ≠ ["node-c"; "node-e"].
Proof.
  split; [reflexivity |]. split; [reflexivity |].
  intros Habs. vm_compute in Habs. discriminate Habs.
Qed.

(** ** The whole run *)

(** C3: a run in which some deletion request failed exits with status
    1.  When the node list was obtained, the status is 1 exactly when some
    request failed and 0 exactly when none did, and a dry run makes no
    request and exits with 0.  When obtaining the node list raises, the
    exception escapes: the run exits with 1 without having made any request,
    dry run or not. *)
Theorem exit_status_tells_failed_deletions {C} `{!KubeApi C}
    (args : Namespace) (w : world C) :
  ∃ new,
    requests (main args w).2 = requests w ++ new ∧
    match listing (cluster w) with
    | Answered _ =>
        (exit_status (main args w).1 = 1 ↔ Exists failed new) ∧
        (exit_status (main args w).1 = 0 ↔ Forall (λ req, req.2 = Deleted) new) ∧
        (if dry_run args then new = [] ∧ exit_status (main args w).1 = 0 else True)
    | ApiError _ | Failure _ =>
        new = [] ∧ exit_status (main args w).1 = 1
    end.
Proof.
  destruct (listing (cluster w)) as [all_nodes | e | what] eqn:Hlist;
    [| exists []; rewrite (proj1 (main_listing_fails args w) e Hlist);
       cbn; rewrite app_nil_r; auto
     | exists []; rewrite (proj2 (main_listing_fails args w) what Hlist);
       cbn; rewrite app_nil_r; auto].
  destruct (main_run w args all_nodes w Hlist) as (new & w' & Hreq & _ & Hcases).
  exists new.
  assert (∀ reqs : list (string * delete_result),
            Forall (λ req, req.2 = Deleted) reqs → ¬ Exists failed reqs) as Hexcl.
  { intros reqs Hall Hex. apply Exists_exists in Hex as (req & Hin & Hfail).
    rewrite Forall_forall in Hall. apply Hfail, Hall, Hin. }
  destruct (dry_run args).
  - destruct Hcases as [-> Hrun]. rewrite Hrun. cbn.
    split; [rewrite app_nil_r in Hreq; rewrite Hreq, app_nil_r; reflexivity |].
    split; [split; [discriminate | intros Hex; inversion Hex] |].
    split; [split; [constructor | reflexivity] |]. split; reflexivity.
  - destruct Hcases as [(_ & Hok & Hrun) | (pre & n & what & Hrun & Hnew & _ & _)];
      rewrite Hrun; cbn [fst snd].
    + split; [exact Hreq |].
      pose proof (no_api_error_iff new Hok) as Hnone.
      destruct (omap api_error new) as [| err errs] eqn:Herrs; cbn.
      * assert (Forall (λ req, req.2 = Deleted) new) as Hall.
        { eapply Forall_impl; [apply Hnone; reflexivity |].
          intros req Hreq'. unfold failed in Hreq'.
          destruct (decide (req.2 = Deleted)); [assumption | contradiction]. }
        split; [split; [discriminate | intros Hex; exfalso; exact (Hexcl _ Hall Hex)] |].
        split; [split; [intros _; exact Hall | reflexivity] | exact I].
      * assert (¬ Forall (λ req, req.2 = Deleted) new) as Hnot.
        { intros Hall. assert ((err :: errs) = []) as Habs; [| discriminate Habs].
          apply Hnone. eapply Forall_impl; [exact Hall |].
          intros req Hdel Hfail. exact (Hfail Hdel). }
        split; [split; [intros _ | reflexivity] |].
        { apply not_Forall_Exists in Hnot; [| intros req; apply _].
          eapply Exists_impl; [exact Hnot |]. intros req Hreq'. exact Hreq'. }
        split; [split; [discriminate | intros Hall; contradiction] | exact I].
    + split; [exact Hreq |].
      assert (Exists failed new) as Hex.
      { rewrite Hnew. apply Exists_app. right. constructor. discriminate. }
      split; [split; [intros _; exact Hex | reflexivity] |].
      split; [split; [discriminate | intros Hall; exfalso; exact (Hexcl _ Hall Hex)] |].
      exact I.
Qed.

(** C3, as first stated, fails when the node list cannot be obtained: on a
    control plane that cannot be reached a dry run makes no deletion request,
    so none failed, and yet the run exits with status 1. *)
Lemma listing_failure_exits_nonzero :
  requests (main {| verbose := false; dry_run := true |}
              (fresh Sample.unreachable)).2 = [] ∧
  (main {| verbose := false; dry_run := true |} (fresh Sample.unreachable)).1
  = Raise (ExOther "MaxRetryError") ∧
  exit_status (main {| verbose := false; dry_run := true |}
                 (fresh Sample.unreachable)).1 ≠ 0.
Proof.
  split; [reflexivity |]. split; [reflexivity |].
  intros Habs. vm_compute in Habs. discriminate Habs.
Qed.

(** C5: in a dry run the deletion step assigns two empty lists without
    calling [terminate_nodes]; the run sends no deletion request and leaves
    the cluster as it found it.  It returns normally when the node list was
    obtained; otherwise the exception of the listing escapes. *)
Theorem dry_run_sends_nothing {C} `{!KubeApi C} (args : Namespace) (w : world C) :
  dry_run args = true →
  (cluster (main args w).2 = cluster w ∧
   requests (main args w).2 = requests w ∧
   (main args w).1 =
   match listing (cluster w) with
   | Answered _ => Val ()
   | ApiError e => Raise (ExApi e)
   | Failure what => Raise (ExOther what)
   end) ∧
  (∀ (filtered_nodes : list V1Node) (w1 : world C),
     ∃ w2,
       delete_step (dry_run args) filtered_nodes w1 = (Val ([], []), w2) ∧
       same_cluster w1 w2).
Proof.
  intros Hdry. split.
  - destruct (listing (cluster w)) as [all_nodes | e | what] eqn:Hlist.
    + destruct (main_run w args all_nodes w Hlist)
        as (new & w' & Hreq & Hserved & Hcases).
      rewrite Hdry in Hcases. destruct Hcases as [-> Hrun].
      rewrite Hrun. cbn [fst snd].
      inversion Hserved; subst. split; [congruence |].
      split; [rewrite Hreq, app_nil_r |]; reflexivity.
    + rewrite (proj1 (main_listing_fails args w) e Hlist). auto.
    + rewrite (proj2 (main_listing_fails args w) what Hlist). auto.
  - intros filtered_nodes w1. rewrite Hdry.
    destruct (delete_step_dry filtered_nodes w1) as (w2 & Hstep & Hsame & _).
    exists w2. split; assumption.
Qed.

Lemma dry_run_sends_nothing_witness :
  dry_run {| verbose := true; dry_run := true |} = true ∧
  cluster (main {| verbose := true; dry_run := true |} (fresh Sample.up)).2 = Sample.up ∧
  requests (main {| verbose := true; dry_run := true |} (fresh Sample.up)).2 = [] ∧
  (main {| verbose := true; dry_run := true |} (fresh Sample.up)).1 = Val ().
Proof.
  split; [reflexivity |].
  exact (proj1 (dry_run_sends_nothing {| verbose := true; dry_run := true |}
                  (fresh Sample.up) eq_refl)).
Defined.

(** C6: in a run that is not a dry run and that obtained the node list, the
    names for which a deletion is requested are, in order, a prefix of the
    names of the nodes that [nodes_for_cleanup] selects from that list, so no
    other node is ever requested; they are all of those names unless a
    request raised an exception that is not an [ApiException]; and such a
    request is the last of the run, its exception escaping from [main]. *)
Theorem main_requests_only_filtered {C} `{!KubeApi C} (args : Namespace)
    (all_nodes : list V1Node) (w : world C) :
  dry_run args = false →
  listing (cluster w) = Answered all_nodes →
  ∃ filtered_nodes new,
    (∀ w0 : world C,
       (nodes_for_cleanup all_nodes w0).1 = Val filtered_nodes) ∧
    requests (main args w).2 = requests w ++ new ∧
    new.*1 `prefix_of` names_of filtered_nodes ∧
    (∀ req, req ∈ new → req.1 ∈ names_of filtered_nodes) ∧
    (Forall (λ req, ¬ crashed req) new → new.*1 = names_of filtered_nodes) ∧
    (∀ node what,
       (node, Crash what) ∈ new →
       last new = Some (node, Crash what) ∧
       (main args w).1 = Raise (ExOther what)).
Proof.
  intros Hwet Hlist.
  destruct (main_run w args all_nodes w Hlist) as (new & w' & Hreq & _ & Hcases).
  rewrite Hwet in Hcases.
  exists (filter (λ node, says_not_ready w node = true) all_nodes), new.
  split.
  { intros w0. destruct (nodes_for_cleanup_run w all_nodes w0)
      as (w1 & Hrun & _). rewrite Hrun. reflexivity. }
  assert (new.*1 `prefix_of`
            names_of (filter (λ node, says_not_ready w node = true) all_nodes))
    as Hpfx.
  { destruct Hcases as [(Hnames & _) | (pre & n & what & _ & _ & _ & Hpfx)];
      [rewrite Hnames; reflexivity | exact Hpfx]. }
  split.
  { destruct Hcases as [(_ & _ & Hrun) | (pre & n & what & Hrun & _)];
      rewrite Hrun; exact Hreq. }
  split; [exact Hpfx |]. split; [| split].
  - intros req Hin. destruct Hpfx as [rest ->].
    apply elem_of_app. left. apply list_elem_of_fmap. exists req. auto.
  - intros Hok. destruct Hcases as [(Hnames & _) | (pre & n & what & _ & Hnew & _)];
      [exact Hnames |].
    exfalso. rewrite Hnew in Hok. apply Forall_app in Hok as [_ Hlast].
    inversion Hlast as [| ? ? Hhd _]. apply Hhd. eexists. reflexivity.
  - intros node what Hin.
    destruct Hcases as [(_ & Hok & _) | (pre & n & what' & Hrun & Hnew & Hpre & _)].
    + exfalso. rewrite Forall_forall in Hok. apply (Hok _ Hin). eexists. reflexivity.
    + rewrite Hnew in Hin. apply elem_of_app in Hin as [Hin | Hin].
      * exfalso. rewrite Forall_forall in Hpre. apply (Hpre _ Hin).
        eexists. reflexivity.
      * apply list_elem_of_singleton in Hin. injection Hin as -> ->.
        rewrite Hrun, Hnew, last_snoc. split; reflexivity.
Qed.

Lemma main_requests_only_filtered_witness :
  dry_run {| verbose := false; dry_run := false |} = false ∧
  listing (cluster (fresh Sample.up)) = Answered (Sample.registered Sample.up) ∧
  ∃ filtered_nodes new,
    (∀ w0 : world Sample.cluster_state,
       (nodes_for_cleanup (Sample.registered Sample.up) w0).1 = Val filtered_nodes) ∧
    requests (main {| verbose := false; dry_run := false |} (fresh Sample.up)).2
    = [] ++ new ∧
    new.*1 `prefix_of` names_of filtered_nodes ∧
    (∀ req, req ∈ new → req.1 ∈ names_of filtered_nodes) ∧
    (Forall (λ req, ¬ crashed req) new → new.*1 = names_of filtered_nodes) ∧
    (∀ node what,
       (node, Crash what) ∈ new →
       last new = Some (node, Crash what) ∧
       (main {| verbose := false; dry_run := false |} (fresh Sample.up)).1
       = Raise (ExOther what)).
Proof.
  split; [reflexivity |]. split; [reflexivity |].
  exact (main_requests_only_filtered {| verbose := false; dry_run := false |}
           (Sample.registered Sample.up) (fresh Sample.up) eq_refl eq_refl).
Defined.

(** C6, as first stated, fails when the control plane answers the listing
    but not the deletions: two nodes are selected, the request for the first
    one raises the HTTP library's own error, and the second one is never
    requested. *)
Lemma main_stops_requesting_on_crash :
  listing Sample.stalling = Answered (Sample.registered Sample.stalling) ∧
  (nodes_for_cleanup (Sample.registered Sample.stalling) (fresh Sample.stalling)).1
  = Val [Sample.lost; Sample.gone] ∧
  (requests (main {| verbose := false; dry_run := false |}
               (fresh Sample.stalling)).2).*1 = ["node-c"] ∧
  (requests (main {| verbose := false; dry_run := false |}
               (fresh Sample.stalling)).2).*1
  ≠ names_of [Sample.lost; Sample.gone].
Proof.
  split; [reflexivity |]. split; [reflexivity |]. split; [reflexivity |].
  intros Habs. vm_compute in Habs. discriminate Habs.
Qed.

(** ** Cost *)

(** C7: the three functions always come to an end, and each in one pass.
    [is_node_ready] returns after at most one loop step per condition of the
    node; [nodes_for_cleanup] returns after at most one step per node and one
    per condition of each node; [terminate_nodes] ends, with a pair or
    with an exception, after exactly one step per request made, and its
    requests are a prefix of its argument, so at most one per node. *)
Theorem loops_are_single_passes {C} `{!KubeApi C} (node : V1Node)
    (nodes : list V1Node) (names : list string) (w : world C) :
  (∃ ready w',
     is_node_ready node w = (Val ready, w') ∧
     (steps w' ≤ length (conditions (status node)) + steps w)%nat) ∧
  (∃ selected w',
     nodes_for_cleanup nodes w = (Val selected, w') ∧
     (steps w' ≤ length nodes
                 + sum_list ((λ node, length (conditions (status node))) <$> nodes)
                 + steps w)%nat) ∧
  (∃ result w' new,
     terminate_nodes names w = (result, w') ∧
     requests w' = requests w ++ new ∧
     new.*1 `prefix_of` names ∧
     steps w' = (length new + steps w)%nat ∧
     (steps w' ≤ length names + steps w)%nat).
Proof.
  split; [| split].
  - destruct (is_node_ready_returns node w) as (ready & w' & Hrun & _ & _ & Hsteps).
    exists ready, w'. split; assumption.
  - destruct (nodes_for_cleanup_run w nodes w) as (w' & Hrun & _ & _ & Hsteps).
    eexists _, w'. split; [exact Hrun | exact Hsteps].
  - destruct (terminate_nodes_run names w)
      as (new & w' & Hreq & _ & _ & _ & Hsteps & Hcases).
    assert (new.*1 `prefix_of` names) as Hpfx.
    { destruct Hcases as [(_ & Hnames & _) | (pre & n & what & _ & _ & _ & Hpfx & _)];
        [rewrite Hnames; reflexivity | exact Hpfx]. }
    exists (terminate_nodes names w).1, w', new.
    split.
    { destruct Hcases as [(Hrun & _) | (pre & n & what & Hrun & _)];
        rewrite Hrun; reflexivity. }
    split; [exact Hreq |]. split; [exact Hpfx |]. split; [exact Hsteps |].
    apply prefix_length in Hpfx. rewrite length_fmap in Hpfx. lia.
Qed.


(** * Further properties of the script *)

(** ** Worlds that differ by log records and steps *)

Section Bookkeeping.
Context {C : Type}.
Implicit Types w : world C.

Lemma log_logged l msg w :
  log l msg w = (Val (), logged [{| record_level := l; record_message := msg |}] w).
Proof.
  unfold log, logged. f_equal. rewrite filter_cons, filter_nil.
  unfold decide at 2, visible_dec. cbn [record_level].
  destruct (decide (levelno (threshold w) ≤ levelno l)%Z); [reflexivity |].
  rewrite app_nil_r. destruct w; reflexivity.
Qed.

Lemma logged_nil w : logged [] w = w.
Proof. unfold logged. rewrite filter_nil, app_nil_r. destruct w; reflexivity. Qed.

Lemma logged_logged rs1 rs2 w : logged rs2 (logged rs1 w) = logged (rs1 ++ rs2) w.
Proof. unfold logged. cbn. rewrite filter_app, app_assoc. reflexivity. Qed.

Lemma logged_add_steps rs n w : logged rs (add_steps n w) = add_steps n (logged rs w).
Proof. reflexivity. Qed.

Lemma emit_error_logged msg w :
  emit {| record_level := ERROR; record_message := msg |} w
  = logged [{| record_level := ERROR; record_message := msg |}] w.
Proof.
  unfold emit, logged. rewrite filter_cons_True, filter_nil; [reflexivity |].
  unfold visible. destruct (threshold w); cbn; lia.
Qed.

Lemma visible_error t r : record_level r = ERROR → visible t r.
Proof. unfold visible. intros ->. destruct t; cbn; lia. Qed.

Lemma readiness_errors_visible t nodes :
  filter (visible t) (readiness_errors nodes) = readiness_errors nodes.
Proof.
  unfold readiness_errors.
  induction (filter _ nodes) as [| node l IH]; [reflexivity |].
  rewrite fmap_cons, filter_cons_True, IH; [reflexivity |].
  apply visible_error. reflexivity.
Qed.

Lemma readiness_errors_app nodes1 nodes2 :
  readiness_errors (nodes1 ++ nodes2) = readiness_errors nodes1 ++ readiness_errors nodes2.
Proof. unfold readiness_errors. rewrite filter_app, fmap_app. reflexivity. Qed.

Lemma list_find_ready_iff (node : V1Node) :
  has_ready_condition node ↔
  is_Some (list_find (λ c, condition_type c = "Ready") (conditions (status node))).
Proof.
  unfold has_ready_condition. split.
  - intros Hex. destruct (list_find _ _) as [p |] eqn:Hfind; [eexists; reflexivity |].
    apply list_find_None in Hfind. apply Exists_exists in Hex as (c & Hin & Hc).
    rewrite Forall_forall in Hfind. exfalso. exact (Hfind c Hin Hc).
  - intros [[i c] Hfind]. apply list_find_Some in Hfind as (Hi & Hc & _).
    apply Exists_exists. exists c. split; [| exact Hc].
    eapply list_elem_of_lookup_2. exact Hi.
Qed.

(** The whole effect of [is_node_ready]: its value, the loop steps it
    takes, and the record it logs when there is no 'Ready' condition. *)
Lemma is_node_ready_world (node : V1Node) w :
  ∃ ready,
    is_node_ready node w =
    (Val ready, add_steps (inspected node) (logged (readiness_errors [node]) w)) ∧
    negb (truthy ready) = says_not_ready w node.
Proof.
  destruct (is_node_ready_says node w) as (ready & w' & Hrun & Hsays & _).
  exists ready. split; [| exact Hsays].
  rewrite Hrun. f_equal. rewrite is_node_ready_run in Hrun.
  unfold inspected, readiness_errors. rewrite filter_cons, filter_nil.
  pose proof (list_find_ready_iff node) as Hiff.
  destruct (list_find _ _) as [[i c] |] eqn:Hfind.
  - rewrite decide_False by (intros Hno; apply Hno, Hiff; eexists; reflexivity).
    cbn. rewrite logged_nil. congruence.
  - rewrite decide_True by (intros Hyes; apply Hiff in Hyes as [? ?]; discriminate).
    cbn [fmap list_fmap]. unfold no_ready_record.
    rewrite <- logged_add_steps, <- emit_error_logged. congruence.
Qed.

End Bookkeeping.

(** ** More on selection *)

Section Selection.
Context {C : Type}.
Implicit Types w : world C.

(** A loop over a concatenation is the loop over the first part followed,
    unless that one left the function or raised, by the loop over the second. *)
Lemma for_in_app {A St R} (xs ys : list A) (body : A → St → M C (ctl St R)) st w :
  for_in (xs ++ ys) body st w =
  match for_in xs body st w with
  | (Val (Continue st'), w') => for_in ys body st' w'
  | r => r
  end.
Proof.
  revert st w. induction xs as [| x xs IH]; intros st w; [reflexivity |].
  rewrite <- app_comm_cons, !for_in_cons.
  destruct (body x st (add_steps 1 w)) as [[[st1 | r] | e] w1]; [apply IH | reflexivity..].
Qed.

Lemma cleanup_loop_world {C'} (w0 : world C') (nodes acc : list V1Node) w :
  for_in (C := C) (R := Empty_set) nodes
    (λ node not_ready,
       ready ← is_node_ready node;
       if negb (truthy ready) then mret (Continue (not_ready ++ [node]))
       else mret (Continue not_ready))
    acc w =
  (Val (Continue (acc ++ filter (λ node, says_not_ready w0 node = true) nodes)),
   add_steps (length nodes + sum_list (inspected <$> nodes))
     (logged (readiness_errors nodes) w)).
Proof.
  revert acc w. induction nodes as [| node nodes IH]; intros acc w.
  - rewrite for_in_nil, filter_nil, app_nil_r. cbn.
    rewrite logged_nil, add_steps_0. reflexivity.
  - rewrite for_in_cons.
    destruct (is_node_ready_world node (add_steps 1 w)) as (ready & Hrun & Hsays).
    rewrite (says_not_ready_indep node _ w0) in Hsays.
    rewrite (run_bind_val _ _ _ _ _ Hrun), filter_cons, Hsays.
    assert (∀ w1 : world C,
              add_steps (length nodes + sum_list (inspected <$> nodes))
                (logged (readiness_errors nodes)
                   (add_steps (inspected node)
                      (logged (readiness_errors [node]) (add_steps 1 w1))))
              = add_steps (length (node :: nodes) + sum_list (inspected <$> node :: nodes))
                  (logged (readiness_errors (node :: nodes)) w1)) as Hworld.
    { intros w1. unfold add_steps, logged.
      cbn [cluster requests threshold records steps].
      f_equal.
      - rewrite <- app_assoc, <- filter_app, <- readiness_errors_app. reflexivity.
      - cbn. lia. }
    destruct (says_not_ready w0 node); cbn.
    + rewrite IH, Hworld, decide_True by reflexivity.
      rewrite <- app_assoc. reflexivity.
    + rewrite IH, Hworld, decide_False by discriminate. reflexivity.
Qed.

Lemma nodes_for_cleanup_world {C'} (w0 : world C') (nodes : list V1Node) w :
  nodes_for_cleanup nodes w =
  (Val (filter (λ node, says_not_ready w0 node = true) nodes),
   add_steps (length nodes + sum_list (inspected <$> nodes))
     (logged (readiness_errors nodes) w)).
Proof.
  unfold nodes_for_cleanup.
  rewrite (run_bind_val _ _ _ _ _ (cleanup_loop_world w0 nodes [] w)). reflexivity.
Qed.

Lemma says_not_ready_iff (node : V1Node) w :
  says_not_ready w node = true ↔
  ∃ i c,
    list_find (λ c, condition_type c = "Ready") (conditions (status node)) = Some (i, c) ∧
    (condition_status c = "Unknown" ∨ condition_status c = "").
Proof.
  unfold says_not_ready. rewrite is_node_ready_run.
  destruct (list_find _ _) as [[i c] |]; cbn.
  - destruct (decide (condition_status c = "Unknown")) as [Hunk | Hunk]; cbn.
    + split; [intros _; eauto | reflexivity].
    + rewrite negb_true_iff, bool_decide_eq_false. split.
      * intros Hempty. exists i, c. split; [reflexivity |]. right.
        destruct (decide (condition_status c = "")); [assumption | contradiction].
      * intros (i' & c' & Heq & [Hu | He]); inversion Heq; subst; [contradiction |].
        intros Hne. exact (Hne He).
  - split; [discriminate | intros (i & c & Heq & _); discriminate].
Qed.

End Selection.

(** X1: [nodes_for_cleanup] selects a node of its argument exactly when the
    node's first condition of type 'Ready' has status "Unknown" or the
    empty string.  Every other status, "True" and "False" alike, keeps the
    node; so does the absence of a 'Ready' condition. *)
Theorem selected_iff_unknown_or_empty {C} (nodes : list V1Node) (w : world C) :
  ∃ selected w',
    nodes_for_cleanup nodes w = (Val selected, w') ∧
    ∀ node,
      node ∈ selected ↔
      node ∈ nodes ∧
      ∃ i c,
        list_find (λ c, condition_type c = "Ready") (conditions (status node))
        = Some (i, c) ∧
        (condition_status c = "Unknown" ∨ condition_status c = "").
Proof.
  eexists _, _. split; [apply (nodes_for_cleanup_world w) |].
  intros node. rewrite list_elem_of_filter, says_not_ready_iff. tauto.
Qed.

(** X2: only the first condition of type 'Ready' counts.  With no 'Ready'
    condition before [c], [is_node_ready] decides on [c], takes one loop
    step for [c] and one for each condition before it, logs nothing, and
    never looks at what follows [c]. *)
Theorem first_ready_condition_decides {C} (m : V1ObjectMeta)
    (pre post : list V1NodeCondition) (c : V1NodeCondition) (w : world C) :
  Forall (λ c, condition_type c ≠ "Ready") pre →
  condition_type c = "Ready" →
  is_node_ready {| metadata := m; status := {| conditions := pre ++ c :: post |} |} w =
  (Val (if decide (condition_status c = "Unknown")
        then PyBool false else PyStr (condition_status c)),
   add_steps (S (length pre)) w).
Proof.
  intros Hpre Hc. rewrite is_node_ready_run. cbn [conditions status].
  assert (list_find (λ c, condition_type c = "Ready") (pre ++ c :: post)
          = Some (length pre, c)) as ->; [| reflexivity].
  apply list_find_Some. split; [| split].
  - rewrite lookup_app_r by lia. rewrite Nat.sub_diag. reflexivity.
  - exact Hc.
  - intros j y Hj Hlt. rewrite lookup_app_l in Hj by exact Hlt.
    rewrite Forall_forall in Hpre. apply Hpre.
    eapply list_elem_of_lookup_2. exact Hj.
Qed.

Lemma first_ready_condition_decides_witness :
  Forall (λ c, condition_type c ≠ "Ready")
    [{| condition_type := "MemoryPressure"; condition_status := "False" |}] ∧
  is_node_ready
    {| metadata := {| name := "node-f" |};
       status := {| conditions :=
         [{| condition_type := "MemoryPressure"; condition_status := "False" |}]
         ++ {| condition_type := "Ready"; condition_status := "Unknown" |}
         :: [{| condition_type := "Ready"; condition_status := "True" |}] |} |}
    (fresh Sample.up)
  = (Val (PyBool false), add_steps 2 (fresh Sample.up)).
Proof.
  assert (Forall (λ c, condition_type c ≠ "Ready")
            [{| condition_type := "MemoryPressure"; condition_status := "False" |}])
    as Hpre by (repeat constructor; discriminate).
  split; [exact Hpre |].
  exact (first_ready_condition_decides {| name := "node-f" |} _
           [{| condition_type := "Ready"; condition_status := "True" |}]
           {| condition_type := "Ready"; condition_status := "Unknown" |}
           (fresh Sample.up) Hpre eq_refl).
Defined.

(** X3: [nodes_for_cleanup] works node by node: what it selects from a
    concatenation is what it selects from the first list followed by what it
    selects from the second, and running it on the second list in the world
    the first run left gives the world of the single run. *)
Theorem nodes_for_cleanup_app {C} (nodes1 nodes2 : list V1Node) (w : world C) :
  ∃ selected1 selected2 w1 w2,
    nodes_for_cleanup nodes1 w = (Val selected1, w1) ∧
    nodes_for_cleanup nodes2 w1 = (Val selected2, w2) ∧
    nodes_for_cleanup (nodes1 ++ nodes2) w = (Val (selected1 ++ selected2), w2).
Proof.
  eexists _, _, _, _.
  split; [apply (nodes_for_cleanup_world w) |].
  split; [apply (nodes_for_cleanup_world w) |].
  rewrite (nodes_for_cleanup_world w), filter_app. f_equal.
  unfold add_steps, logged. cbn [cluster requests threshold records steps].
  f_equal.
  - rewrite <- app_assoc, <- filter_app, <- readiness_errors_app. reflexivity.
  - rewrite fmap_app, sum_list_with_app, length_app. lia.
Qed.

(** X4: the log of [nodes_for_cleanup] is one [ERROR] record for each node
    of its argument that has no condition of type 'Ready', in the order of
    the argument, whatever the logger's level; nothing else is logged and
    the level is left as it was. *)
Theorem nodes_for_cleanup_logs_missing_ready {C} (nodes : list V1Node) (w : world C) :
  records (nodes_for_cleanup nodes w).2 =
  records w ++
  (no_ready_record <$> filter (λ node, ¬ has_ready_condition node) nodes) ∧
  threshold (nodes_for_cleanup nodes w).2 = threshold w.
Proof.
  rewrite (nodes_for_cleanup_world w). cbn.
  rewrite readiness_errors_visible. split; reflexivity.
Qed.

(** ** More on deletion *)

Section Deletion.
Context {C : Type} `{!KubeApi C}.
Implicit Types w : world C.

Local Abbreviation terminate_body :=
  (λ (node : string) '(success, errors),
     caught ← try_except
                (core_delete_node node;; mret None)
                (λ e, mret (Some (errors ++ [(node, e)])));
     match caught with
     | Some errors' => mret (Continue (R := Empty_set) (success, errors'))
     | None => mret (Continue (success ++ [node], errors))
     end).

(** The loop only ever appends to its two accumulators. *)
Lemma terminate_loop_acc (nodes success : list string)
    (errors : list (string * ApiException)) w :
  for_in nodes terminate_body (success, errors) w =
  match for_in nodes terminate_body ([], []) w with
  | (Val (Continue (success', errors')), w') =>
      (Val (Continue (success ++ success', errors ++ errors')), w')
  | r => r
  end.
Proof.
  revert success errors w.
  induction nodes as [| node nodes IH]; intros success errors w.
  - rewrite !for_in_nil, !app_nil_r. reflexivity.
  - rewrite !for_in_cons.
    destruct (terminate_body_run node success errors (add_steps 1 w))
      as (r & c1 & Hdel & Hbody).
    destruct (terminate_body_run node [] [] (add_steps 1 w))
      as (r' & c1' & Hdel' & Hbody').
    rewrite Hdel in Hdel'. injection Hdel' as <- <-.
    rewrite Hbody, Hbody'.
    destruct r as [| e | what]; [| | reflexivity].
    + rewrite (IH (success ++ [node]) errors), (IH ([] ++ [node]) []).
      destruct (for_in nodes _ ([], []) _) as [[[[s' e'] | []] | x] w']; [| reflexivity].
      cbn. rewrite <- app_assoc. reflexivity.
    + rewrite (IH success (errors ++ [(node, e)])), (IH [] ([] ++ [(node, e)])).
      destruct (for_in nodes _ ([], []) _) as [[[[s' e'] | []] | x] w']; [| reflexivity].
      cbn. rewrite <- app_assoc. reflexivity.
Qed.

End Deletion.

(** X5: [terminate_nodes] works node by node.  On a concatenation it does
    what it does on the first list and then, in the world that left and
    unless an exception escaped, what it does on the second; the two returned
    pairs are appended componentwise.  An exception that escapes from the
    first part is the outcome of the whole, and the second part is not
    attempted. *)
Theorem terminate_nodes_app {C} `{!KubeApi C} (nodes1 nodes2 : list string)
    (w : world C) :
  terminate_nodes (nodes1 ++ nodes2) w =
  match terminate_nodes nodes1 w with
  | (Val (success1, errors1), w1) =>
      match terminate_nodes nodes2 w1 with
      | (Val (success2, errors2), w2) =>
          (Val (success1 ++ success2, errors1 ++ errors2), w2)
      | r => r
      end
  | r => r
  end.
Proof.
  unfold terminate_nodes. rewrite !run_bind, for_in_app.
  destruct (for_in nodes1 _ ([], []) w) as [[[[s1 e1] | []] | x] w1]; [| reflexivity].
  cbn [fallen].
  change (@mret (M C) _ _ (s1, e1) w1) with (Val (s1, e1), w1). cbn beta iota.
  rewrite run_bind, terminate_loop_acc.
  destruct (for_in nodes2 _ ([], []) w1) as [[[[s2 e2] | []] | x] w2]; reflexivity.
Qed.

(** X6: [terminate_nodes] logs nothing and leaves the logger's level
    alone, whether it returns or an exception escapes; reporting is left to
    its caller. *)
Theorem terminate_nodes_is_silent {C} `{!KubeApi C} (nodes : list string)
    (w : world C) :
  records (terminate_nodes nodes w).2 = records w ∧
  threshold (terminate_nodes nodes w).2 = threshold w.
Proof.
  destruct (terminate_nodes_run nodes w)
    as (new & w' & _ & _ & Hthr & Hrec & _ & Hcases).
  destruct Hcases as [(Hrun & _) | (pre & n & what & Hrun & _)];
    rewrite Hrun; split; assumption.
Qed.

(** ** More on the whole run *)

Section MainWorld.
Context {C : Type} `{!KubeApi C}.
Implicit Types w : world C.

(** A loop whose body hands one record per element to the logger. *)
Lemma logging_loop_world {A} (xs : list A) (body : A → () → M C (ctl () Empty_set))
    (f : A → log_record) w :
  (∀ x st w, body x st w = (Val (Continue ()), logged [f x] w)) →
  for_in xs body () w =
  (Val (Continue ()), add_steps (length xs) (logged (f <$> xs) w)).
Proof.
  intros Hbody. revert w. induction xs as [| x xs IH]; intros w.
  - rewrite for_in_nil. cbn. rewrite logged_nil, add_steps_0. reflexivity.
  - rewrite for_in_cons, Hbody, IH. f_equal.
    unfold add_steps, logged. cbn [cluster requests threshold records steps].
    f_equal; [| cbn; lia].
    rewrite <- app_assoc, <- filter_app. reflexivity.
Qed.

Lemma report_world (success : list string) (errors : list (string * ApiException)) w :
  report success errors w =
  (match errors with [] => Val () | _ :: _ => Raise (SystemExit 1) end,
   add_steps (length success + length errors)
     (logged (deletion_report success errors) w)).
Proof.
  unfold report.
  assert (∀ (x : string) (st : ()) (w0 : world C),
            (log INFO (MsgDeleted x);; mret (Continue (R := Empty_set) ())) w0
            = (Val (Continue ()),
               logged [{| record_level := INFO; record_message := MsgDeleted x |}] w0))
    as Hinfo.
  { intros x st w0. rewrite (run_bind_val _ _ _ _ _ (log_logged _ _ w0)). reflexivity. }
  assert (∀ (x : string * ApiException) (st : ()) (w0 : world C),
            (let '(node_name, exception) := x in
             λ _ : (),
               log ERROR (MsgDeleteError node_name exception);;
               mret (Continue (R := Empty_set) ())) st w0
            = (Val (Continue ()),
               logged [{| record_level := ERROR;
                          record_message := MsgDeleteError x.1 x.2 |}] w0))
    as Herror.
  { intros [n e] st w0. rewrite (run_bind_val _ _ _ _ _ (log_logged _ _ w0)).
    reflexivity. }
  rewrite (run_bind_val _ _ _ _ _
             (logging_loop_world success
                (λ node_name (_ : ()),
                   log INFO (MsgDeleted node_name);; mret (Continue ()))
                _ w Hinfo)).
  rewrite (run_bind_val _ _ _ _ _
             (logging_loop_world errors
                (λ '(node_name, exception) (_ : ()),
                   log ERROR (MsgDeleteError node_name exception);; mret (Continue ()))
                _ _ Herror)).
  rewrite logged_add_steps, add_steps_add, logged_logged.
  unfold deletion_report.
  replace (length errors + length success)%nat
    with (length success + length errors)%nat by lia.
  destruct errors; reflexivity.
Qed.

Lemma main_prefix_world {C'} (w0 : world C') (args : Namespace)
    (all_nodes : list V1Node) w :
  listing (cluster w) = Answered all_nodes →
  (basicConfig (if verbose args then DEBUG else WARNING);;
   all_nodes ← list_all_nodes;
   found ← node_names all_nodes;
   log DEBUG (MsgFoundNodes found);;
   filtered_nodes ← nodes_for_cleanup all_nodes;
   to_delete ← node_names filtered_nodes;
   log DEBUG (MsgNodesToBeDeleted to_delete);;
   mret filtered_nodes) w =
  (Val (filter (λ node, says_not_ready w0 node = true) all_nodes),
   add_steps (2 * length all_nodes
              + sum_list (inspected <$> all_nodes)
              + length (filter (λ node, says_not_ready w0 node = true)
                          all_nodes))
     (logged (announcement all_nodes
                (filter (λ node, says_not_ready w0 node = true)
                   all_nodes))
        (with_level (if verbose args then DEBUG else WARNING) w))).
Proof.
  intros Hlist.
  set (lvl := if verbose args then DEBUG else WARNING).
  set (filtered := filter (λ node, says_not_ready w0 node = true) all_nodes).
  assert (basicConfig lvl w = (Val (), with_level lvl w)) as Ha by reflexivity.
  assert (list_all_nodes (with_level lvl w) = (Val all_nodes, with_level lvl w))
    as Hb by (apply list_all_nodes_ok; exact Hlist).
  rewrite (run_bind_val _ _ _ _ _ Ha), (run_bind_val _ _ _ _ _ Hb),
    (run_bind_val _ _ _ _ _ (node_names_run all_nodes _)),
    (run_bind_val _ _ _ _ _ (log_logged _ _ _)),
    (run_bind_val _ _ _ _ _ (nodes_for_cleanup_world w0 all_nodes _)).
  fold filtered.
  rewrite (run_bind_val _ _ _ _ _ (node_names_run filtered _)),
    (run_bind_val _ _ _ _ _ (log_logged _ _ _)).
  unfold mret, M_ret. f_equal.
  unfold announcement, add_steps, logged, with_level.
  cbn [cluster requests threshold records steps].
  f_equal; [| lia].
  rewrite !filter_app, <- !app_assoc. reflexivity.
Qed.

(** One run of the script, with its log and its cost.  [tail] is what is
    logged after the announcement and [extra] the loop steps taken after it. *)
Lemma main_world {C'} (w0 : world C') (args : Namespace)
    (all_nodes : list V1Node) w :
  listing (cluster w) = Answered all_nodes →
  ∃ new w' tail extra,
    requests w' = requests w ++ new ∧
    threshold w' = (if verbose args then DEBUG else WARNING) ∧
    records w' =
    records w ++
    filter (visible (if verbose args then DEBUG else WARNING))
      (announcement all_nodes
         (filter (λ node, says_not_ready w0 node = true) all_nodes)
       ++ tail) ∧
    steps w' =
    (steps w + 2 * length all_nodes
     + sum_list (inspected <$> all_nodes)
     + length (filter (λ node, says_not_ready w0 node = true) all_nodes)
     + extra)%nat ∧
    (extra ≤ 3 * length (filter (λ node, says_not_ready w0 node = true)
                           all_nodes))%nat ∧
    ((dry_run args = true ∧ new = [] ∧
      tail = [{| record_level := INFO; record_message := MsgDryRun |}] ∧
      main args w = (Val (), w'))
     ∨
     (dry_run args = false ∧ Forall (λ req, ¬ crashed req) new ∧
      new.*1 = names_of (filter (λ node, says_not_ready w0 node = true)
                           all_nodes) ∧
      tail = deletion_report (filter (λ req, req.2 = Deleted) new).*1
               (omap api_error new) ∧
      main args w =
      (match omap api_error new with
       | [] => Val ()
       | _ :: _ => Raise (SystemExit 1)
       end, w'))
     ∨
     (dry_run args = false ∧ tail = [] ∧
      ∃ pre node what,
        new = pre ++ [(node, Crash what)] ∧
        Forall (λ req, ¬ crashed req) pre ∧
        new.*1 `prefix_of`
          names_of (filter (λ node, says_not_ready w0 node = true)
                      all_nodes) ∧
        main args w = (Raise (ExOther what), w'))).
Proof.
  intros Hlist.
  rewrite main_unfold,
    (run_bind_val _ _ _ _ _ (main_prefix_world w0 args all_nodes w Hlist)).
  set (lvl := if verbose args then DEBUG else WARNING).
  set (filtered := filter (λ node, says_not_ready w0 node = true) all_nodes).
  set (n0 := (2 * length all_nodes + sum_list (inspected <$> all_nodes)
              + length filtered)%nat).
  set (wp := add_steps n0 (logged (announcement all_nodes filtered) (with_level lvl w))).
  assert (requests wp = requests w) as Hwp_req by reflexivity.
  assert (threshold wp = lvl) as Hwp_thr by reflexivity.
  assert (records wp
          = records w ++ filter (visible lvl) (announcement all_nodes filtered))
    as Hwp_rec by reflexivity.
  assert (steps wp = (n0 + steps w)%nat) as Hwp_steps by reflexivity.
  clearbody wp.
  destruct (dry_run args) eqn:Hdry.
  - assert (delete_step true filtered wp
            = (Val ([], []),
               logged [{| record_level := INFO; record_message := MsgDryRun |}] wp))
      as Hstep.
    { unfold delete_step. cbn [negb].
      rewrite (run_bind_val _ _ _ _ _ (log_logged _ _ _)). reflexivity. }
    rewrite (run_bind_val _ _ _ _ _ Hstep), report_world.
    change (deletion_report [] []) with (@nil log_record).
    rewrite logged_nil, add_steps_0.
    set (wf := logged [{| record_level := INFO; record_message := MsgDryRun |}] wp).
    assert (requests wf = requests wp) as Hf_req by reflexivity.
    assert (threshold wf = threshold wp) as Hf_thr by reflexivity.
    assert (records wf
            = records wp ++ filter (visible (threshold wp))
                              [{| record_level := INFO; record_message := MsgDryRun |}])
      as Hf_rec by reflexivity.
    assert (steps wf = steps wp) as Hf_steps by reflexivity.
    exists [], wf, [{| record_level := INFO; record_message := MsgDryRun |}], 0%nat.
    rewrite Hf_req, Hf_thr, Hf_rec, Hf_steps, Hwp_req, Hwp_thr, Hwp_rec, Hwp_steps,
      app_nil_r.
    split; [reflexivity |]. split; [reflexivity |].
    split; [rewrite filter_app, app_assoc; reflexivity |].
    split; [subst n0; lia |]. split; [lia |].
    left. auto.
  - rewrite run_bind, delete_step_wet.
    destruct (terminate_nodes_run (names_of filtered) (add_steps (length filtered) wp))
      as (new & w2 & Hreq & _ & Hthr & Hrec & Hsteps & Hcases).
    unfold add_steps in Hreq, Hthr, Hrec, Hsteps.
    cbn [cluster requests threshold records steps] in Hreq, Hthr, Hrec, Hsteps.
    rewrite Hwp_req in Hreq. rewrite Hwp_thr in Hthr. rewrite Hwp_rec in Hrec.
    rewrite Hwp_steps in Hsteps.
    destruct Hcases
      as [(Hrun & Hnames & Hok) | (pre & n & what & Hrun & Hnew & Hpre & Hpfx & Hlen)].
    + rewrite Hrun, report_world.
      destruct (answers_partition new Hok) as [_ Hparts].
      assert (length new = length filtered) as Hnew.
      { rewrite <- (length_fmap fst new), Hnames. unfold names_of.
        rewrite length_fmap. reflexivity. }
      set (success := (filter (λ req, req.2 = Deleted) new).*1) in *.
      set (errors := omap api_error new) in *.
      set (wf := add_steps (length success + length errors)
                   (logged (deletion_report success errors) w2)).
      assert (requests wf = requests w2) as Hf_req by reflexivity.
      assert (threshold wf = threshold w2) as Hf_thr by reflexivity.
      assert (records wf
              = records w2 ++ filter (visible (threshold w2))
                                (deletion_report success errors))
        as Hf_rec by reflexivity.
      assert (steps wf = (length success + length errors + steps w2)%nat)
        as Hf_steps by reflexivity.
      exists new, wf, (deletion_report success errors),
        (length filtered + 2 * length new)%nat.
      rewrite Hf_req, Hf_thr, Hf_rec, Hf_steps, Hreq, Hthr, Hrec, Hsteps.
      split; [reflexivity |]. split; [reflexivity |].
      split; [rewrite filter_app, app_assoc; reflexivity |].
      split; [subst n0 success; rewrite length_fmap; lia |]. split; [lia |].
      right. left. auto.
    + rewrite Hrun.
      exists new, w2, [], (length filtered + length new)%nat.
      split; [exact Hreq |]. split; [exact Hthr |].
      split; [rewrite Hrec, app_nil_r; reflexivity |].
      split; [rewrite Hsteps; subst n0; lia |].
      split; [unfold names_of in Hlen; rewrite length_fmap in Hlen; lia |].
      right. right. split; [reflexivity |]. split; [reflexivity |].
      exists pre, n, what. auto.
Qed.

End MainWorld.

Section LevelFilters.

Lemma filter_warning_announcement (all_nodes filtered_nodes : list V1Node) :
  filter (visible WARNING) (announcement all_nodes filtered_nodes)
  = readiness_errors all_nodes.
Proof.
  unfold announcement.
  rewrite !filter_app, readiness_errors_visible.
  rewrite !filter_cons_False, !filter_nil, app_nil_r by (unfold visible; cbn; lia).
  reflexivity.
Qed.

Lemma filter_warning_deletion_report (success : list string)
    (errors : list (string * ApiException)) :
  filter (visible WARNING) (deletion_report success errors)
  = (λ p, {| record_level := ERROR; record_message := MsgDeleteError p.1 p.2 |})
      <$> errors.
Proof.
  unfold deletion_report. rewrite filter_app.
  assert (filter (visible WARNING)
            ((λ node_name,
                {| record_level := INFO; record_message := MsgDeleted node_name |})
               <$> success) = []) as ->.
  { induction success as [| x success IH]; [reflexivity |].
    rewrite fmap_cons, filter_cons_False by (unfold visible; cbn; lia). exact IH. }
  induction errors as [| x errors IH]; [reflexivity |].
  rewrite fmap_cons, filter_cons_True by (unfold visible; cbn; lia).
  cbn in IH |- *. rewrite IH. reflexivity.
Qed.

Lemma inspected_le (node : V1Node) :
  (inspected node ≤ length (conditions (status node)))%nat.
Proof.
  unfold inspected. destruct (list_find _ _) as [[i c] |] eqn:Hfind; [| lia].
  apply list_find_Some in Hfind as (Hi & _). apply lookup_lt_Some in Hi. lia.
Qed.

Lemma sum_inspected_le (nodes : list V1Node) :
  (sum_list (inspected <$> nodes)
   ≤ sum_list ((λ node, length (conditions (status node))) <$> nodes))%nat.
Proof.
  induction nodes as [| node nodes IH]; [reflexivity |].
  cbn. pose proof (inspected_le node). lia.
Qed.

End LevelFilters.

(** X7: the log of a run that obtained the node list.  The logger's level
    is [DEBUG] with [--verbose] and [WARNING] without; the records handed to
    it are, in this order: the names of all nodes, one error for each node
    without 'Ready' condition, the names of the selected nodes, then in a dry
    run the dry-run notice, otherwise one line for each deleted node followed
    by one for each [ApiException]; when an exception that is not an
    [ApiException] ends the run, nothing is logged after the names of the
    selected nodes. *)
Theorem main_log {C} `{!KubeApi C} (args : Namespace) (all_nodes : list V1Node)
    (w : world C) :
  listing (cluster w) = Answered all_nodes →
  ∃ new,
    requests (main args w).2 = requests w ++ new ∧
    threshold (main args w).2 = (if verbose args then DEBUG else WARNING) ∧
    records (main args w).2 =
    records w ++
    filter (visible (if verbose args then DEBUG else WARNING))
      (announcement all_nodes
         (filter (λ node, says_not_ready w node = true) all_nodes)
       ++ (if dry_run args
           then [{| record_level := INFO; record_message := MsgDryRun |}]
           else if decide (Exists crashed new) then []
                else deletion_report (filter (λ req, req.2 = Deleted) new).*1
                       (omap api_error new))).
Proof.
  intros Hlist.
  destruct (main_world w args all_nodes w Hlist)
    as (new & w' & tail & extra & Hreq & Hthr & Hrec & _ & _ & Hcases).
  exists new.
  destruct Hcases
    as [(Hdry & _ & Htail & Hrun)
       | [(Hdry & Hok & _ & Htail & Hrun)
         | (Hdry & Htail & pre & n & what & Hnew & _ & _ & Hrun)]];
    rewrite Hrun, Hdry; cbn [fst snd];
    (split; [exact Hreq |]); (split; [exact Hthr |]); rewrite Hrec, Htail.
  - reflexivity.
  - rewrite decide_False; [reflexivity |].
    intros Hex. apply Exists_exists in Hex as (req & Hin & Hcr).
    rewrite Forall_forall in Hok. exact (Hok req Hin Hcr).
  - rewrite decide_True; [reflexivity |].
    rewrite Hnew. apply Exists_app. right. constructor. eexists. reflexivity.
Qed.

Lemma main_log_witness :
  listing (cluster (fresh Sample.up)) = Answered (Sample.registered Sample.up) ∧
  ∃ new,
    requests (main {| verbose := true; dry_run := false |} (fresh Sample.up)).2
    = requests (fresh Sample.up) ++ new ∧
    threshold (main {| verbose := true; dry_run := false |} (fresh Sample.up)).2
    = DEBUG ∧
    records (main {| verbose := true; dry_run := false |} (fresh Sample.up)).2 =
    records (fresh Sample.up) ++
    filter (visible DEBUG)
      (announcement (Sample.registered Sample.up)
         (filter (λ node, says_not_ready (fresh Sample.up) node = true)
            (Sample.registered Sample.up))
       ++ (if decide (Exists crashed new) then []
           else deletion_report (filter (λ req, req.2 = Deleted) new).*1
                  (omap api_error new))).
Proof.
  split; [reflexivity |].
  exact (main_log {| verbose := true; dry_run := false |}
           (Sample.registered Sample.up) (fresh Sample.up) eq_refl).
Defined.

(** X8: without [--verbose] a run that obtained the node list logs errors
    and nothing else: one for each node without 'Ready' condition, then one
    for each deletion that raised [ApiException].  In particular a dry run
    without [--verbose] says nothing about the nodes it would delete. *)
Theorem quiet_run_logs_only_errors {C} `{!KubeApi C} (dry : bool)
    (all_nodes : list V1Node) (w : world C) :
  listing (cluster w) = Answered all_nodes →
  ∃ new,
    requests (main {| verbose := false; dry_run := dry |} w).2 = requests w ++ new ∧
    (if dry then new = [] else True) ∧
    records (main {| verbose := false; dry_run := dry |} w).2 =
    records w ++
    readiness_errors all_nodes ++
    ((λ p, {| record_level := ERROR; record_message := MsgDeleteError p.1 p.2 |})
       <$> (if decide (Exists crashed new) then [] else omap api_error new)).
Proof.
  intros Hlist.
  destruct (main_world w {| verbose := false; dry_run := dry |} all_nodes w Hlist)
    as (new & w' & tail & extra & Hreq & _ & Hrec & _ & _ & Hcases).
  exists new. cbn [verbose dry_run] in Hrec, Hcases.
  rewrite filter_app, filter_warning_announcement in Hrec.
  destruct Hcases
    as [(Hdry & Hnil & Htail & Hrun)
       | [(Hdry & Hok & _ & Htail & Hrun)
         | (Hdry & Htail & pre & n & what & Hnew & _ & _ & Hrun)]];
    rewrite Hrun, Hdry; cbn [fst snd]; (split; [exact Hreq |]);
    rewrite Hrec, Htail.
  - split; [exact Hnil |]. subst new.
    rewrite decide_False by (intros Hex; inversion Hex).
    rewrite filter_cons_False, filter_nil by (unfold visible; cbn; lia). reflexivity.
  - split; [exact I |].
    rewrite decide_False, filter_warning_deletion_report; [reflexivity |].
    intros Hex. apply Exists_exists in Hex as (req & Hin & Hcr).
    rewrite Forall_forall in Hok. exact (Hok req Hin Hcr).
  - split; [exact I |].
    rewrite decide_True; [reflexivity |].
    rewrite Hnew. apply Exists_app. right. constructor. eexists. reflexivity.
Qed.

Lemma quiet_run_logs_only_errors_witness :
  listing (cluster (fresh Sample.up)) = Answered (Sample.registered Sample.up) ∧
  ∃ new,
    requests (main {| verbose := false; dry_run := true |} (fresh Sample.up)).2
    = requests (fresh Sample.up) ++ new ∧
    new = [] ∧
    records (main {| verbose := false; dry_run := true |} (fresh Sample.up)).2 =
    records (fresh Sample.up) ++
    readiness_errors (Sample.registered Sample.up) ++
    ((λ p, {| record_level := ERROR; record_message := MsgDeleteError p.1 p.2 |})
       <$> (if decide (Exists crashed new) then [] else omap api_error new)).
Proof.
  split; [reflexivity |].
  exact (quiet_run_logs_only_errors true (Sample.registered Sample.up)
           (fresh Sample.up) eq_refl).
Defined.

(** X9: how a run ends.  When the node list was obtained, [main] returns,
    or leaves through [sys.exit(1)], or the last deletion request raised an
    exception that is not an [ApiException] and that exception escapes.
    When obtaining the node list raises, that exception escapes, be it an
    [ApiException] or not, before anything is requested or logged.  So an
    [ApiException] escapes from [main] only from the listing, never from a
    deletion. *)
Theorem main_outcomes {C} `{!KubeApi C} (args : Namespace) (w : world C) :
  match listing (cluster w) with
  | Answered _ =>
      (main args w).1 = Val () ∨
      (main args w).1 = Raise (SystemExit 1) ∨
      ∃ node what,
        (main args w).1 = Raise (ExOther what) ∧
        last (requests (main args w).2) = Some (node, Crash what)
  | ApiError e =>
      (main args w).1 = Raise (ExApi e) ∧
      requests (main args w).2 = requests w ∧
      cluster (main args w).2 = cluster w ∧
      records (main args w).2 = records w
  | Failure what =>
      (main args w).1 = Raise (ExOther what) ∧
      requests (main args w).2 = requests w ∧
      cluster (main args w).2 = cluster w ∧
      records (main args w).2 = records w
  end.
Proof.
  destruct (listing (cluster w)) as [all_nodes | e | what] eqn:Hlist.
  - destruct (main_world w args all_nodes w Hlist)
      as (new & w' & tail & extra & Hreq & _ & _ & _ & _ & Hcases).
    destruct Hcases
      as [(_ & _ & _ & Hrun)
         | [(_ & _ & _ & _ & Hrun)
           | (_ & _ & pre & n & what & Hnew & _ & _ & Hrun)]];
      rewrite Hrun; cbn [fst snd].
    + left. reflexivity.
    + destruct (omap api_error new); [left | right; left]; reflexivity.
    + right. right. exists n, what. split; [reflexivity |].
      rewrite Hreq, Hnew, app_assoc. apply last_snoc.
  - rewrite (proj1 (main_listing_fails args w) e Hlist). auto.
  - rewrite (proj2 (main_listing_fails args w) what Hlist). auto.
Qed.

(** X10: a verbose dry run previews the deletions.  When the node list is
    obtained, it logs the names of the nodes to be deleted, and a run
    without [--dry-run] started in the same world requests the deletion of
    those names, in that order, up to the first request that raises an
    exception that is not an [ApiException]. *)
Theorem dry_run_previews_deletions {C} `{!KubeApi C} (v : bool)
    (all_nodes : list V1Node) (w : world C) :
  listing (cluster w) = Answered all_nodes →
  ∃ names new,
    {| record_level := DEBUG; record_message := MsgNodesToBeDeleted names |}
    ∈ records (main {| verbose := true; dry_run := true |} w).2 ∧
    requests (main {| verbose := v; dry_run := false |} w).2 = requests w ++ new ∧
    new.*1 `prefix_of` names ∧
    (if decide (Exists crashed new) then True else new.*1 = names).
Proof.
  intros Hlist.
  exists (names_of (filter (λ node, says_not_ready w node = true) all_nodes)).
  destruct (main_world w {| verbose := v; dry_run := false |} all_nodes w Hlist)
    as (new & w' & tail & extra & Hreq & _ & _ & _ & _ & Hcases).
  exists new. split.
  - destruct (main_world w {| verbose := true; dry_run := true |} all_nodes w Hlist)
      as (new0 & w0' & tail0 & extra0 & _ & _ & Hrec & _ & _ & Hcases0).
    cbn [verbose] in Hrec.
    destruct Hcases0
      as [(_ & _ & _ & Hrun) | [(Hdry & _) | (Hdry & _)]]; [| discriminate..].
    rewrite Hrun. cbn [snd]. rewrite Hrec.
    apply elem_of_app. right. apply list_elem_of_filter.
    split; [unfold visible; cbn; lia |].
    unfold announcement. rewrite !elem_of_app. left. right. right.
    apply list_elem_of_here.
  - destruct Hcases
      as [(Hdry & _)
         | [(_ & Hok & Hnames & _ & Hrun)
           | (_ & _ & pre & n & what & Hnew & _ & Hpfx & Hrun)]];
      [discriminate | |]; rewrite Hrun; cbn [snd]; (split; [exact Hreq |]).
    + split; [rewrite Hnames; reflexivity |].
      destruct (decide (Exists crashed new)); [exact I | exact Hnames].
    + split; [exact Hpfx |].
      rewrite decide_True; [exact I |].
      rewrite Hnew. apply Exists_app. right. constructor. eexists. reflexivity.
Qed.

Lemma dry_run_previews_deletions_witness :
  listing (cluster (fresh Sample.up)) = Answered (Sample.registered Sample.up) ∧
  ∃ names new,
    {| record_level := DEBUG; record_message := MsgNodesToBeDeleted names |}
    ∈ records (main {| verbose := true; dry_run := true |} (fresh Sample.up)).2 ∧
    requests (main {| verbose := false; dry_run := false |} (fresh Sample.up)).2
    = requests (fresh Sample.up) ++ new ∧
    new.*1 `prefix_of` names ∧
    (if decide (Exists crashed new) then True else new.*1 = names).
Proof.
  split; [reflexivity |].
  exact (dry_run_previews_deletions false (Sample.registered Sample.up)
           (fresh Sample.up) eq_refl).
Defined.

(** X11: a whole run is linear in what the cluster returned: counting the
    executions of every loop body and comprehension of [main] and of the
    functions it calls, a run on the nodes the listing returned takes at most
    six steps per node plus one per status condition. *)
Theorem main_cost {C} `{!KubeApi C} (args : Namespace) (all_nodes : list V1Node)
    (w : world C) :
  listing (cluster w) = Answered all_nodes →
  (steps (main args w).2
   ≤ steps w + 6 * length all_nodes
     + sum_list ((λ node, length (conditions (status node))) <$> all_nodes))%nat.
Proof.
  intros Hlist.
  destruct (main_world w args all_nodes w Hlist)
    as (new & w' & tail & extra & _ & _ & _ & Hsteps & Hextra & Hcases).
  assert ((main args w).2 = w') as ->.
  { destruct Hcases
      as [(_ & _ & _ & Hrun)
         | [(_ & _ & _ & _ & Hrun) | (_ & _ & pre & n & what & _ & _ & _ & Hrun)]];
      rewrite Hrun; reflexivity. }
  pose proof (sum_inspected_le all_nodes) as Hsum.
  pose proof (length_filter (λ node, says_not_ready w node = true) all_nodes) as Hlen.
  lia.
Qed.

Lemma main_cost_witness :
  listing (cluster (fresh Sample.up)) = Answered (Sample.registered Sample.up) ∧
  (steps (main {| verbose := false; dry_run := false |} (fresh Sample.up)).2
   ≤ steps (fresh Sample.up) + 6 * length (Sample.registered Sample.up)
     + sum_list ((λ node, length (conditions (status node)))
                   <$> Sample.registered Sample.up))%nat.
Proof.
  split; [reflexivity |].
  exact (main_cost {| verbose := false; dry_run := false |}
           (Sample.registered Sample.up) (fresh Sample.up) eq_refl).
Defined.

(** X12: a cluster in which no node's first 'Ready' condition has status
    "Unknown" or the empty string is left alone: a run that obtains such a
    node list selects nothing, sends no deletion request, leaves the cluster
    in the state it found and exits with status 0, dry run or not. *)
Theorem nothing_selected_nothing_requested {C} `{!KubeApi C} (args : Namespace)
    (all_nodes : list V1Node) (w : world C) :
  listing (cluster w) = Answered all_nodes →
  Forall (λ node,
            ∀ i c,
              list_find (λ c, condition_type c = "Ready") (conditions (status node))
              = Some (i, c) →
              condition_status c ≠ "Unknown" ∧ condition_status c ≠ "")
    all_nodes →
  requests (main args w).2 = requests w ∧
  cluster (main args w).2 = cluster w ∧
  exit_status (main args w).1 = 0.
Proof.
  intros Hlist Hall.
  assert (filter (λ node, says_not_ready w node = true) all_nodes = []) as Hnone.
  { clear Hlist. induction Hall as [| node nodes Hnode _ IH]; [reflexivity |].
    rewrite filter_cons_False; [exact IH |].
    rewrite says_not_ready_iff. intros (i & c & Hfind & Hstatus).
    destruct (Hnode i c Hfind) as [Hu He]. destruct Hstatus; contradiction. }
  destruct (main_run w args all_nodes w Hlist) as (new & w' & Hreq & Hserved & Hcases).
  rewrite Hnone in Hcases.
  assert (new = [] ∧ main args w = (Val (), w')) as [-> Hrun].
  { destruct (dry_run args); [exact Hcases |].
    destruct Hcases as [(Hnames & _ & Hrun) | (pre & n & what & _ & Hnew & _ & Hpfx)].
    - apply fmap_nil_inv in Hnames. subst new. split; [reflexivity | exact Hrun].
    - exfalso. apply prefix_nil_inv in Hpfx. rewrite Hnew, fmap_app in Hpfx.
      destruct (pre.*1); discriminate Hpfx. }
  rewrite Hrun. cbn [fst snd exit_status].
  inversion Hserved; subst.
  split; [rewrite Hreq, app_nil_r; reflexivity |]. split; reflexivity.
Qed.

Lemma nothing_selected_nothing_requested_witness :
  listing (cluster (fresh Sample.quiet_cluster))
  = Answered [Sample.healthy; Sample.down; Sample.silent] ∧
  Forall (λ node,
            ∀ i c,
              list_find (λ c, condition_type c = "Ready") (conditions (status node))
              = Some (i, c) →
              condition_status c ≠ "Unknown" ∧ condition_status c ≠ "")
    [Sample.healthy; Sample.down; Sample.silent] ∧
  requests (main {| verbose := false; dry_run := false |}
              (fresh Sample.quiet_cluster)).2 = [] ∧
  cluster (main {| verbose := false; dry_run := false |}
             (fresh Sample.quiet_cluster)).2 = Sample.quiet_cluster ∧
  exit_status (main {| verbose := false; dry_run := false |}
                 (fresh Sample.quiet_cluster)).1 = 0.
Proof.
  assert (Forall (λ node,
            ∀ i c,
              list_find (λ c, condition_type c = "Ready") (conditions (status node))
              = Some (i, c) →
              condition_status c ≠ "Unknown" ∧ condition_status c ≠ "")
            [Sample.healthy; Sample.down; Sample.silent]) as Hall.
  { apply Forall_cons; split;
      [| apply Forall_cons; split; [| apply Forall_cons; split; [| apply Forall_nil_2]]];
      intros i c Hfind; vm_compute in Hfind;
      try discriminate Hfind; injection Hfind as <- <-; split; discriminate. }
  split; [reflexivity |]. split; [exact Hall |].
  exact (nothing_selected_nothing_requested {| verbose := false; dry_run := false |}
           [Sample.healthy; Sample.down; Sample.silent]
           (fresh Sample.quiet_cluster) eq_refl Hall).
Defined.
